(** * request-pure: the request / redirect / decoding pipeline

    A shallow embedding of [src/Request.ts] (class [RequestClient], function
    [getRequestOptions], class [Request]) and of [isRedirect] /
    [extractContentType] from the utilities module, together with the
    properties of the pipeline that the specification states.

    Conventions of the embedding.
    - A JavaScript string is a [string]: its sequence of UTF-8 bytes.
    - A JavaScript number that the pipeline only compares and counts
      (status code, redirect count, size, timeout) is a [Z].
    - [null] / [undefined] are [None] or a dedicated constructor.
    - A thrown exception is the [inl] of a sum; promise settlement and
      calls on the Node request are recorded as a list of effects, in
      program order. *)

From Stdlib Require Import String Ascii List ZArith Bool Lia.
Import ListNotations.
Local Open Scope string_scope.
Local Open Scope Z_scope.

(* ===================================================================== *)
(** ** Platform: the parts of ECMAScript that the source calls           *)
(* ===================================================================== *)

Module JS.

(** Values that [throw] and [reject] carry in this program:
    [new Error(msg)], [new TypeError(msg)], and the value [undefined],
    which the callback of a finished pipeline hands on. *)
Inductive Exn : Type :=
| Error (message : string)
| TypeError (message : string)
| Undefined.

Definition exn_message (e : Exn) : string :=
  match e with Error m => m | TypeError m => m | Undefined => "" end.

(** The double quote, as a string. *)
Definition quote : string := String (ascii_of_nat 34) EmptyString.

Definition code (c : ascii) : Z := Z.of_nat (nat_of_ascii c).

Definition is_upper (c : ascii) : bool := (65 <=? code c) && (code c <=? 90).
Definition is_lower (c : ascii) : bool := (97 <=? code c) && (code c <=? 122).
Definition is_digit (c : ascii) : bool := (48 <=? code c) && (code c <=? 57).

Definition upper_char (c : ascii) : ascii :=
  if is_lower c then ascii_of_nat (nat_of_ascii c - 32) else c.
Definition lower_char (c : ascii) : ascii :=
  if is_upper c then ascii_of_nat (nat_of_ascii c + 32) else c.

Fixpoint map_string (f : ascii -> ascii) (s : string) : string :=
  match s with
  | EmptyString => EmptyString
  | String c r => String (f c) (map_string f r)
  end.

(** [String.prototype.toUpperCase] / [toLowerCase], on the ASCII letters;
    bytes of non-ASCII characters are left as they are. *)
Definition toUpperCase : string -> string := map_string upper_char.
Definition toLowerCase : string -> string := map_string lower_char.

(** Truthiness of a number and of a string. *)
Definition truthy_number (n : Z) : bool := negb (n =? 0).
Definition truthy_string (s : string) : bool :=
  match s with EmptyString => false | _ => true end.

(** [String(v)] for [v : string | null]. *)
Definition String_ (v : option string) : string :=
  match v with Some s => s | None => "null" end.

(** Decimal rendering of a number inside a template literal. *)
Fixpoint digits (fuel : nat) (n : Z) (acc : string) : string :=
  match fuel with
  | O => acc
  | S f =>
      let acc' := String (ascii_of_nat (Z.to_nat (48 + n mod 10))) acc in
      if n / 10 =? 0 then acc' else digits f (n / 10) acc'
  end.
Definition number_to_string (n : Z) : string :=
  if n <? 0 then "-" ++ digits (Z.to_nat (Z.log2 (- n)) + 1) (- n) ""
  else digits (Z.to_nat (Z.log2 n) + 1) n "".

Definition hex_digit (n : Z) : ascii :=
  ascii_of_nat (Z.to_nat (if n <? 10 then 48 + n else 55 + n)).

(** [%XX], upper-case hexadecimal. *)
Definition percent_byte (c : ascii) : string :=
  String "%" (String (hex_digit (code c / 16))
             (String (hex_digit (code c mod 16)) EmptyString)).

Fixpoint encode_with (keep : ascii -> option string) (s : string) : string :=
  match s with
  | EmptyString => EmptyString
  | String c r =>
      match keep c with
      | Some out => out ++ encode_with keep r
      | None => percent_byte c ++ encode_with keep r
      end
  end.

Definition one (c : ascii) : string := String c EmptyString.

(** [encodeURIComponent]: every byte is escaped except
    [A-Z a-z 0-9 - _ . ! ~ * ' ( )]. *)
Definition uri_unreserved (c : ascii) : bool :=
  is_upper c || is_lower c || is_digit c ||
  existsb (Z.eqb (code c)) [45; 95; 46; 33; 126; 42; 39; 40; 41].

Definition encodeURIComponent : string -> string :=
  encode_with (fun c => if uri_unreserved c then Some (one c) else None).

End JS.

(* ===================================================================== *)
(** ** Platform: WHATWG [URL] and [URLSearchParams]                      *)
(* ===================================================================== *)

Module URLSearchParams.

(** The list of name-value pairs of a query, in order. *)
Definition t := list (string * string).

(** The application/x-www-form-urlencoded byte serializer: a space
    becomes [+], [* - . _] and the ASCII alphanumerics stay, every other
    byte becomes [%XX]. *)
Definition form_keep (c : ascii) : option string :=
  if JS.code c =? 32 then Some "+"
  else if JS.is_upper c || JS.is_lower c || JS.is_digit c ||
          existsb (Z.eqb (JS.code c)) [42; 45; 46; 95]
       then Some (JS.one c)
       else None.

Definition serialize_string : string -> string := JS.encode_with form_keep.

Fixpoint serialize (l : t) : string :=
  match l with
  | [] => ""
  | [(k, v)] => serialize_string k ++ "=" ++ serialize_string v
  | (k, v) :: r =>
      serialize_string k ++ "=" ++ serialize_string v ++ "&" ++ serialize r
  end.

Definition unhex (c : ascii) : option Z :=
  let n := JS.code c in
  if JS.is_digit c then Some (n - 48)
  else if (65 <=? n) && (n <=? 70) then Some (n - 55)
  else if (97 <=? n) && (n <=? 102) then Some (n - 87)
  else None.

(** Percent-decoding: [%XX] with two hexadecimal digits is one byte, any
    other byte stands for itself. *)
Fixpoint percent_decode (s : string) : string :=
  match s with
  | EmptyString => EmptyString
  | String c r =>
      let literal := String c (percent_decode r) in
      if JS.code c =? 37 then
        match r with
        | String h (String l r') =>
            match unhex h, unhex l with
            | Some a, Some b =>
                String (ascii_of_nat (Z.to_nat (16 * a + b)))
                       (percent_decode r')
            | _, _ => literal
            end
        | _ => literal
        end
      else literal
  end.

Definition plus_to_space : string -> string :=
  JS.map_string (fun c => if JS.code c =? 43 then " "%char else c).

Definition decode_string (s : string) : string :=
  percent_decode (plus_to_space s).

(** Split at every occurrence of [sep]. *)
Fixpoint split_on (sep : ascii) (s : string) : list string :=
  match s with
  | EmptyString => [EmptyString]
  | String c r =>
      if Ascii.eqb c sep then EmptyString :: split_on sep r
      else match split_on sep r with
           | [] => [JS.one c]
           | w :: ws => String c w :: ws
           end
  end.

(** Split at the first [=]; without one the value is empty. *)
Fixpoint split_pair (s : string) : string * string :=
  match s with
  | EmptyString => (EmptyString, EmptyString)
  | String c r =>
      if Ascii.eqb c "="%char then (EmptyString, r)
      else let (k, v) := split_pair r in (String c k, v)
  end.

(** The application/x-www-form-urlencoded parser. *)
Definition parse (q : string) : t :=
  map (fun seq => let (k, v) := split_pair seq in
                  (decode_string k, decode_string v))
      (filter JS.truthy_string (split_on "&"%char q)).

(** [set(name, value)]: the first pair called [name] takes the value and
    the later ones are removed; without such a pair one is appended. *)
Fixpoint remove_name (name : string) (l : t) : t :=
  match l with
  | [] => []
  | (k, v) :: r =>
      if String.eqb k name then remove_name name r
      else (k, v) :: remove_name name r
  end.

Fixpoint set (l : t) (name value : string) : t :=
  match l with
  | [] => [(name, value)]
  | (k, v) :: r =>
      if String.eqb k name then (k, value) :: remove_name name r
      else (k, v) :: set r name value
  end.

Definition get (l : t) (name : string) : option string :=
  option_map snd (find (fun kv => String.eqb (fst kv) name) l).

End URLSearchParams.

Module URL.

(** A parsed URL. [query] is the query without its [?], [None] when the
    URL has none. [port] is empty for the default port of the scheme. *)
Record t : Type := mk {
  protocol : string;
  hostname : string;
  port : string;
  pathname : string;
  query : option string;
  hash : string
}.

Definition host (u : t) : string :=
  if JS.truthy_string (port u) then hostname u ++ ":" ++ port u
  else hostname u.

Definition search (u : t) : string :=
  match query u with
  | None => ""
  | Some q => if JS.truthy_string q then "?" ++ q else ""
  end.

Definition toString (u : t) : string :=
  protocol u ++ "//" ++ host u ++ pathname u ++
  (match query u with None => "" | Some q => "?" ++ q end) ++ hash u.

Definition searchParams (u : t) : URLSearchParams.t :=
  match query u with
  | None => []
  | Some q => URLSearchParams.parse q
  end.

(** A change of the [searchParams] object writes the serialized list
    back into the URL; an empty serialization leaves no query. *)
Definition update_searchParams (u : t) (l : URLSearchParams.t) : t :=
  let s := URLSearchParams.serialize l in
  mk (protocol u) (hostname u) (port u) (pathname u)
     (if JS.truthy_string s then Some s else None) (hash u).

(** [url.searchParams.set(name, value)]. *)
Definition searchParams_set (u : t) (name value : string) : t :=
  update_searchParams u (URLSearchParams.set (searchParams u) name value).

(** [url.searchParams.append(name, value)]. *)
Definition searchParams_append (u : t) (name value : string) : t :=
  update_searchParams u (searchParams u ++ [(name, value)])%list.

(** The URL parser, [new URL(input, base)]: [None] is the [TypeError] it
    throws on an input it cannot parse. *)
Definition parser := string -> option string -> option t.

End URL.

(* ===================================================================== *)
(** ** Enumerations and constants ([@/enum], [@/constant])               *)
(* ===================================================================== *)

(** Modelled from the spec: the module [@/enum] is not among the sources.
    The header names are those of the wire-level contract (section 6) and
    of the resolver (section 4.2), in the lower case the Header Store
    keys them by. *)
Module HEADER_MAP.
Definition LOCATION := "location".
Definition CONTENT_LENGTH := "content-length".
Definition CONTENT_ENCODING := "content-encoding".
Definition CONTENT_TYPE := "content-type".
Definition ACCEPT := "accept".
Definition ACCEPT_ENCODING := "accept-encoding".
Definition CONNECTION := "connection".
End HEADER_MAP.

(** Modelled from the spec: the module [@/enum] is not among the sources.
    GET is the safe read method, HEAD the metadata-only method (they are
    the two methods the message of [getRequestOptions] names), POST the
    write method of section 4.3. *)
Module METHOD_MAP.
Definition GET := "GET".
Definition HEAD := "HEAD".
Definition POST := "POST".
End METHOD_MAP.

(** Modelled from the spec: the module [@/enum] is not among the sources.
    The tokens are those of the decision table of section 4.4. *)
Module COMPRESSION_TYPE.
Definition GZIP := "gzip".
Definition DEFLATE := "deflate".
Definition BR := "br".
End COMPRESSION_TYPE.

(** Modelled from the spec: the module [@/constant] is not among the
    sources. Every compression scheme the Decoding Pipeline supports. *)
Definition SUPPORTED_COMPRESSIONS : list string :=
  [COMPRESSION_TYPE.GZIP; COMPRESSION_TYPE.DEFLATE; COMPRESSION_TYPE.BR].

(** [Array.prototype.join]. *)
Fixpoint join (sep : string) (l : list string) : string :=
  match l with
  | [] => ""
  | [x] => x
  | x :: r => x ++ sep ++ join sep r
  end.

(* ===================================================================== *)
(** ** Utilities ([@/utils])                                             *)
(* ===================================================================== *)

(** A request body: [string | null | Buffer | Stream]. A stream is an
    object with a state: [BodyStream chunks] is the stream with [chunks]
    still to be read, so the stream that has been piped to a request is
    [BodyStream []] from then on (see [drained]). *)
Inductive Body : Type :=
| BodyNull
| BodyString (s : string)
| BodyBuffer (bytes : list Z)
| BodyStream (chunks : list (list Z)).

Definition body_is_null (b : Body) : bool :=
  match b with BodyNull => true | _ => false end.

(** Truthiness of a body: [null] and the empty string are falsy. *)
Definition body_truthy (b : Body) : bool :=
  match b with
  | BodyNull => false
  | BodyString s => JS.truthy_string s
  | BodyBuffer _ | BodyStream _ => true
  end.

Definition extractContentType (body : Body) : option string :=
  match body with
  | BodyString _ => Some "text/plain;charset=UTF-8"
  | _ => None
  end.

(** [isRedirect(code: number | undefined)]. *)
Definition isRedirect (code : option Z) : bool :=
  match code with
  | None => false
  | Some code =>
      (code =? 301) || (code =? 302) || (code =? 303) ||
      (code =? 307) || (code =? 308)
  end.

(* ===================================================================== *)
(** ** Header Store ([@/Headers])                                        *)
(* ===================================================================== *)

(** A header record as Node has it: [Record<string, string | string[]>],
    in insertion order; a single string is a one-element list. *)
Definition RawHeaders := list (string * list string).

(** Modelled from the spec: the class [Headers] is not among the sources.
    Section 4.1 and the data model: an insertion-ordered list of
    (lower-case name, values); [set] replaces, [append] adds, [get] gives
    the first value or null, [has] tests existence, [delete] removes all
    values, [raw] exports the mapping; names are compared without case. *)
Module Headers.

Definition t := list (string * list string).

Definition key (name : string) : string := JS.toLowerCase name.

Fixpoint lookup (h : t) (k : string) : option (list string) :=
  match h with
  | [] => None
  | (k', vs) :: r => if String.eqb k' k then Some vs else lookup r k
  end.

Definition get (h : t) (name : string) : option string :=
  match lookup h (key name) with
  | Some (v :: _) => Some v
  | _ => None
  end.

Definition has (h : t) (name : string) : bool :=
  match lookup h (key name) with Some _ => true | None => false end.

Definition delete (h : t) (name : string) : t :=
  filter (fun kv => negb (String.eqb (fst kv) (key name))) h.

Fixpoint update (h : t) (k : string) (f : list string -> list string) : t :=
  match h with
  | [] => [(k, f [])]
  | (k', vs) :: r =>
      if String.eqb k' k then (k', f vs) :: r else (k', vs) :: update r k f
  end.

Definition set (h : t) (name value : string) : t :=
  update h (key name) (fun _ => [value]).

Definition append (h : t) (name value : string) : t :=
  update h (key name) (fun vs => (vs ++ [value])%list).

Definition raw (h : t) : RawHeaders := h.

(** [new Headers(init)], [init] possibly [undefined]. *)
Definition new (init : option RawHeaders) : t :=
  match init with
  | None => []
  | Some raw =>
      fold_left
        (fun h kv => fold_left (fun h v => append h (fst kv) v) (snd kv) h)
        raw []
  end.

End Headers.

(* ===================================================================== *)
(** ** Option records ([typings.d.ts])                                   *)
(* ===================================================================== *)

(** [DefaultOptions]. *)
Module DefaultOptions.
Record t : Type := mk {
  method : string;
  body : Body;
  followRedirect : bool;
  maxRedirectCount : Z;
  timeout : Z;
  size : Z
}.
End DefaultOptions.

(** Modelled from the spec: the module [@/constant] is not among the
    sources. Section 4.2: method = safe read method, body = absent,
    follow-redirect = true, max-redirect-hops = 20, timeout = disabled,
    max-size = disabled; [typings.d.ts] and the README document the same
    defaults. *)
Definition DEFAULT_OPTIONS : DefaultOptions.t :=
  DefaultOptions.mk METHOD_MAP.GET BodyNull true 20 0 0.

(** [RequestConstructorOptions]: every field of [Options] is optional,
    [None] is an absent property. *)
Module RequestConstructorOptions.
Record t : Type := mk {
  requestURL : string;
  method : option string;
  body : option Body;
  headers : option RawHeaders;
  query : option (list (string * string));
  followRedirect : option bool;
  maxRedirectCount : option Z;
  timeout : option Z;
  size : option Z
}.
End RequestConstructorOptions.

(** [RequestOptions]: the resolved options the client works on. *)
Module RequestOptions.
Record t : Type := mk {
  requestURL : string;
  query : option (list (string * string));
  method : string;
  body : Body;
  followRedirect : bool;
  maxRedirectCount : Z;
  timeout : Z;
  size : Z;
  parsedURL : URL.t;
  headers : Headers.t
}.

Definition set_rewrite (o : t) (m : string) (b : Body) (h : Headers.t) : t :=
  mk (requestURL o) (query o) m b (followRedirect o) (maxRedirectCount o)
     (timeout o) (size o) (parsedURL o) h.

Definition set_parsedURL (o : t) (u : URL.t) : t :=
  mk (requestURL o) (query o) (method o) (body o) (followRedirect o)
     (maxRedirectCount o) (timeout o) (size o) u (headers o).
End RequestOptions.

Definition or_default {A : Type} (user : option A) (default : A) : A :=
  match user with Some v => v | None => default end.

(* ===================================================================== *)
(** ** Request Resolver: [getRequestOptions]                             *)
(* ===================================================================== *)

Section Resolver.

(** [new URL(input, base)] of the platform. *)
Variable URL_new : URL.parser.

(** The loop over [Object.entries(query)]. *)
Definition mergeQuery (parsedURL : URL.t) (query : list (string * string))
  : URL.t :=
  fold_left
    (fun u kv =>
       URL.searchParams_set u (JS.encodeURIComponent (fst kv))
                              (JS.encodeURIComponent (snd kv)))
    query parsedURL.

Definition resolveHeaders (headerOptions : option RawHeaders) (body : Body)
  : Headers.t :=
  let headers := Headers.new headerOptions in
  let headers := Headers.delete headers HEADER_MAP.CONTENT_LENGTH in
  let headers :=
    Headers.set headers HEADER_MAP.ACCEPT_ENCODING
                (join "," SUPPORTED_COMPRESSIONS) in
  let headers :=
    if negb (Headers.has headers HEADER_MAP.ACCEPT)
    then Headers.set headers HEADER_MAP.ACCEPT "*/*" else headers in
  let headers :=
    if negb (Headers.has headers HEADER_MAP.CONNECTION)
    then Headers.set headers HEADER_MAP.CONNECTION "close" else headers in
  if body_truthy body && negb (Headers.has headers HEADER_MAP.CONTENT_TYPE)
  then match extractContentType body with
       | Some contentType =>
           Headers.append headers HEADER_MAP.CONTENT_TYPE contentType
       | None => headers
       end
  else headers.

Definition getRequestOptions (constructorOptions : RequestConstructorOptions.t)
  : JS.Exn + RequestOptions.t :=
  let co := constructorOptions in
  (* { ...DEFAULT_OPTIONS, ...constructorOptions } *)
  let o_method :=
    or_default (RequestConstructorOptions.method co)
               (DefaultOptions.method DEFAULT_OPTIONS) in
  let body :=
    or_default (RequestConstructorOptions.body co)
               (DefaultOptions.body DEFAULT_OPTIONS) in
  let followRedirect :=
    or_default (RequestConstructorOptions.followRedirect co)
               (DefaultOptions.followRedirect DEFAULT_OPTIONS) in
  let maxRedirectCount :=
    or_default (RequestConstructorOptions.maxRedirectCount co)
               (DefaultOptions.maxRedirectCount DEFAULT_OPTIONS) in
  let timeout :=
    or_default (RequestConstructorOptions.timeout co)
               (DefaultOptions.timeout DEFAULT_OPTIONS) in
  let size :=
    or_default (RequestConstructorOptions.size co)
               (DefaultOptions.size DEFAULT_OPTIONS) in
  let requestURL := RequestConstructorOptions.requestURL co in
  let query := RequestConstructorOptions.query co in
  let headerOptions := RequestConstructorOptions.headers co in
  let method := JS.toUpperCase o_method in
  if negb (body_is_null body) &&
     (String.eqb method METHOD_MAP.GET || String.eqb method METHOD_MAP.HEAD)
  then inl (JS.TypeError "Request with GET/HEAD method cannot have body")
  else
    match URL_new requestURL None with
    | None => inl (JS.TypeError "Invalid URL")
    | Some parsedURL =>
        let protocol := URL.protocol parsedURL in
        let hostname := URL.hostname parsedURL in
        if negb (JS.truthy_string protocol && JS.truthy_string hostname)
        then inl (JS.TypeError "Only absolute URLs are supported")
        else if negb (String.eqb protocol "http:" ||
                      String.eqb protocol "https:")
        then inl (JS.TypeError "Only HTTP(S) protocols are supported")
        else
          let parsedURL :=
            match query with
            | Some q => mergeQuery parsedURL q
            | None => parsedURL
            end in
          let headers := resolveHeaders headerOptions body in
          inr (RequestOptions.mk requestURL query method body followRedirect
                                 maxRedirectCount timeout size parsedURL
                                 headers)
    end.

End Resolver.

(* ===================================================================== *)
(** ** Utilities ([@/utils]): header tokens and header values            *)
(* ===================================================================== *)

(** The functions below read a string through [charCodeAt]: it is given
    here as the list of its UTF-16 code units. *)
Definition CodeUnits := list Z.

(** [val.charCodeAt(i)], for [i] within the string. *)
Definition charCodeAt (val : CodeUnits) (i : nat) : Z := nth i val 0.

Definition isValidTokenChar (ch : Z) : bool :=
  if (94 <=? ch) && (ch <=? 122) then true
  else if (65 <=? ch) && (ch <=? 90) then true
  else if ch =? 45 then true
  else if (48 <=? ch) && (ch <=? 57) then true
  else if (ch =? 34) || (ch =? 40) || (ch =? 41) || (ch =? 44) then false
  else if (33 <=? ch) && (ch <=? 46) then true
  else if (ch =? 124) || (ch =? 126) then true
  else false.

(** A value of type [unknown]: a string or anything else. *)
Inductive Unknown : Type :=
| NotAString
| AString (val : CodeUnits).

(** [for (let i = ...; i < len; i += 1) if (!isValidTokenChar(...)) return
    false], [n] being the number of indices left. *)
Fixpoint token_loop (val : CodeUnits) (n i : nat) : bool :=
  match n with
  | O => true
  | S n' =>
      if negb (isValidTokenChar (charCodeAt val i)) then false
      else token_loop val n' (S i)
  end.

Definition checkIsHttpToken (val : Unknown) : bool :=
  match val with
  | NotAString => false
  | AString val =>
      let len := length val in
      if Nat.eqb len 0 then false
      else if negb (isValidTokenChar (charCodeAt val 0)) then false
      else if Nat.ltb 1 len then
        if negb (isValidTokenChar (charCodeAt val 1)) then false
        else if Nat.ltb 2 len then
          if negb (isValidTokenChar (charCodeAt val 2)) then false
          else if Nat.ltb 3 len then
            if negb (isValidTokenChar (charCodeAt val 3)) then false
            else token_loop val (len - 4) 4
          else true
        else true
      else true
  end.

(** The test every branch of [checkInvalidHeaderChar] makes. *)
Definition invalidHeaderChar (c : Z) : bool :=
  ((c <=? 31) && negb (c =? 9)) || (255 <? c) || (c =? 127).

Fixpoint header_loop (val : CodeUnits) (n i : nat) : bool :=
  match n with
  | O => false
  | S n' =>
      if invalidHeaderChar (charCodeAt val i) then true
      else header_loop val n' (S i)
  end.

Definition checkInvalidHeaderChar (val : CodeUnits) : bool :=
  let len := length val in
  if Nat.ltb len 1 then false
  else if invalidHeaderChar (charCodeAt val 0) then true
  else if Nat.ltb len 2 then false
  else if invalidHeaderChar (charCodeAt val 1) then true
  else if Nat.ltb len 3 then false
  else if invalidHeaderChar (charCodeAt val 2) then true
  else header_loop val (len - 3) 3.

(* ===================================================================== *)
(** ** Transport and streams (Node [http], [https], [stream], [zlib])    *)
(* ===================================================================== *)

Inductive Adapter : Type := http | https.

Definition adapterForHttp (protocol : string) : JS.Exn + Adapter :=
  if String.eqb protocol "http:" then inr http
  else if String.eqb protocol "https:" then inr https
  else inl (JS.TypeError "Only HTTP(S) protocols are supported").

(** The argument of [adapter.request(options)]. *)
Module ClientRequest.
Record t : Type := mk {
  adapter : Adapter;
  protocol : string;
  host : string;
  hostname : string;
  port : string;
  path : string;
  headers : RawHeaders;
  method : string
}.
End ClientRequest.

(** Platform: what [adapter.request(options)] of Node checks before it
    hands a request back. The method must be an HTTP token and is sent in
    upper case, an empty method is sent as GET; every header name must be
    an HTTP token and no header value may hold a control character other
    than the tab, a DEL, or a character beyond U+00FF (in UTF-8: a byte
    from 196 on). Each failure is a [TypeError] thrown by the call. The
    path comes from a parsed URL and is escaped already. *)
Module Node.

Definition code_units (s : string) : CodeUnits :=
  map JS.code (list_ascii_of_string s).

Definition invalid_token (what field : string) : JS.Exn :=
  JS.TypeError (what ++ " must be a valid HTTP token [" ++ JS.quote ++ field
                ++ JS.quote ++ "]").

Definition request_method (method : string) : JS.Exn + string :=
  if JS.truthy_string method then
    if checkIsHttpToken (AString (code_units method))
    then inr (JS.toUpperCase method)
    else inl (invalid_token "Method" method)
  else inr "GET".

Definition invalid_value_byte (b : Z) : bool :=
  ((b <=? 31) && negb (b =? 9)) || (b =? 127) || (196 <=? b).

Definition check_header (header : string * list string) : option JS.Exn :=
  let (name, values) := header in
  if negb (checkIsHttpToken (AString (code_units name)))
  then Some (invalid_token "Header name" name)
  else if existsb (fun v => existsb invalid_value_byte (code_units v)) values
  then Some (JS.TypeError ("Invalid character in header content ["
                           ++ JS.quote ++ name ++ JS.quote ++ "]"))
  else None.

Fixpoint check_headers (headers : RawHeaders) : option JS.Exn :=
  match headers with
  | [] => None
  | header :: rest =>
      match check_header header with
      | Some e => Some e
      | None => check_headers rest
      end
  end.

(** [adapter.request(options)]: the request as it will be sent. *)
Definition request (options : ClientRequest.t) : JS.Exn + ClientRequest.t :=
  match request_method (ClientRequest.method options) with
  | inl e => inl e
  | inr method =>
      match check_headers (ClientRequest.headers options) with
      | Some e => inl e
      | None =>
          inr (ClientRequest.mk (ClientRequest.adapter options)
                 (ClientRequest.protocol options) (ClientRequest.host options)
                 (ClientRequest.hostname options) (ClientRequest.port options)
                 (ClientRequest.path options) (ClientRequest.headers options)
                 method)
      end
  end.

End Node.

(** [http.IncomingMessage] as the response handler reads it: the status
    code (possibly [undefined]), the header record, and the chunks its
    ['data'] events deliver, in order. *)
Module IncomingMessage.
Record t : Type := mk {
  statusCode : option Z;
  headers : RawHeaders;
  chunks : list (list Z)
}.
End IncomingMessage.

(** The stages a body stream is piped through. *)
Inductive Transform : Type :=
| PassThrough
| BrotliDecompress   (* zlib.createBrotliDecompress() *)
| Gunzip             (* zlib.createGunzip() *)
| Inflate            (* zlib.createInflate() *)
| InflateRaw.        (* zlib.createInflateRaw() *)

(** A readable stream built by [pump]: the chunks of the source and the
    stages they go through, first stage first. *)
Module Stream.
Record t : Type := mk {
  source : list (list Z);
  stages : list Transform
}.
End Stream.

(** [pump(res, stage, callback)] on the incoming message. *)
Definition pump_res (res : IncomingMessage.t) (stage : Transform) : Stream.t :=
  Stream.mk (IncomingMessage.chunks res) [stage].

(** [pump(stream, stage, callback)] on a stream built before. *)
Definition pump (s : Stream.t) (stage : Transform) : Stream.t :=
  Stream.mk (Stream.source s) (Stream.stages s ++ [stage])%list.

Section StreamOutput.

(** What a decompressor of [zlib] yields on the whole input, [None] when
    it reports an error. *)
Variable zlib : Transform -> list Z -> option (list Z).

Definition run_stage (t : Transform) (bytes : list Z) : option (list Z) :=
  match t with
  | PassThrough => Some bytes
  | _ => zlib t bytes
  end.

Fixpoint run_stages (ts : list Transform) (bytes : list Z)
  : option (list Z) :=
  match ts with
  | [] => Some bytes
  | t :: r =>
      match run_stage t bytes with
      | Some out => run_stages r out
      | None => None
      end
  end.

(** The bytes a consumer reads from the stream. *)
Definition output (s : Stream.t) : option (list Z) :=
  run_stages (Stream.stages s) (concat (Stream.source s)).

End StreamOutput.

(** A stream is decoded when one of its stages is a decompressor. *)
Definition is_decoder (t : Transform) : bool :=
  match t with PassThrough => false | _ => true end.

Definition decoded (s : Stream.t) : bool := existsb is_decoder (Stream.stages s).

(** The arguments of [new ResponseImpl(body, { ... })]. *)
Module ResponseImpl.
Record t : Type := mk {
  body : Stream.t;
  requestURL : string;
  statusCode : Z;
  headers : Headers.t;
  size : Z
}.
End ResponseImpl.

(* ===================================================================== *)
(** ** Redirect Engine and Decoding Pipeline: [RequestClient]            *)
(* ===================================================================== *)

(** What a response handler does to the outside, in program order. *)
Inductive Effect : Type :=
| Destroy                          (* clientRequest.destroy() *)
| Reject (reason : JS.Exn)         (* reject(reason) *)
| Fulfil (response : ResponseImpl.t)  (* resolve(new ResponseImpl(...)) *)
| FulfilWithSend                   (* resolve(this.send()): the next hop *)
| Throw (e : JS.Exn).              (* an exception leaves the handler *)

(** The state of the promise [send()] returned. *)
Inductive Settled : Type :=
| Pending
| Fulfilled (response : ResponseImpl.t)
| Rejected (reason : JS.Exn).

(** What the transport answers to one request. *)
Inductive Reply : Type :=
| ReplyResponse (res : IncomingMessage.t)   (* 'response' *)
| ReplyError (e : JS.Exn)                   (* 'error' *)
| ReplyAbort                                (* 'abort' *)
| ReplyIdle.                                (* the socket stays silent *)

Module RequestClient.

Record t : Type := mk {
  options : RequestOptions.t;
  redirectCount : Z
}.

(** [new RequestClient(options)]. *)
Definition new (options : RequestOptions.t) : t := mk options 0.

Definition createRequest (this : t) : JS.Exn + ClientRequest.t :=
  let o := options this in
  let u := RequestOptions.parsedURL o in
  match adapterForHttp (URL.protocol u) with
  | inl e => inl e
  | inr adapter =>
      Node.request
        (ClientRequest.mk adapter (URL.protocol u) (URL.host u)
           (URL.hostname u) (URL.port u)
           (URL.pathname u ++ URL.search u)
           (Headers.raw (RequestOptions.headers o))
           (RequestOptions.method o))
  end.

(** [onRejected]: [cancelRequest(); reject(reason)]. *)
Definition onRejected (reason : JS.Exn) : list Effect :=
  [Destroy; Reject reason].

(** The sniff of the first chunk: [(chunk[0] & 0x0f) === 0x08]; the
    element of an empty chunk is [undefined], which [&] reads as 0. *)
Definition sniff_zlib (chunk : list Z) : bool :=
  Z.land (nth 0 chunk 0) 15 =? 8.

(** The handler from [pumpCallback] to its end: the body stream, the
    decoding switch and [resolveResponse]. *)
Definition deliver (method requestURL : string) (size statusCode : Z)
    (headers : Headers.t) (res : IncomingMessage.t) : list Effect :=
  let responseBody := pump_res res PassThrough in
  let resolveResponse (responseBody : Stream.t) :=
    [Fulfil (ResponseImpl.mk responseBody requestURL statusCode headers size)]
  in
  match Headers.get headers HEADER_MAP.CONTENT_ENCODING with
  | Some codings =>
      if negb (String.eqb method METHOD_MAP.HEAD) &&
         negb (statusCode =? 204) && negb (statusCode =? 304)
      then
        if String.eqb codings COMPRESSION_TYPE.BR then
          resolveResponse (pump responseBody BrotliDecompress)
        else if String.eqb codings COMPRESSION_TYPE.GZIP ||
                String.eqb codings ("x-" ++ COMPRESSION_TYPE.GZIP) then
          resolveResponse (pump responseBody Gunzip)
        else if String.eqb codings COMPRESSION_TYPE.DEFLATE ||
                String.eqb codings ("x-" ++ COMPRESSION_TYPE.DEFLATE) then
          (* once('data', ...) on a second pass-through of [res] *)
          match IncomingMessage.chunks res with
          | chunk :: _ =>
              if sniff_zlib chunk
              then resolveResponse (pump responseBody Inflate)
              else resolveResponse (pump responseBody InflateRaw)
          | [] => []
          end
        else resolveResponse responseBody
      else resolveResponse responseBody
  | None => resolveResponse responseBody
  end.

Section Handler.

Variable URL_new : URL.parser.

(** The rewrite of [this.options] on a followed redirect. *)
Definition rewrite (o : RequestOptions.t) (statusCode : Z) (method : string)
  : RequestOptions.t :=
  if (statusCode =? 303) ||
     (((statusCode =? 301) || (statusCode =? 302)) &&
      String.eqb method METHOD_MAP.POST)
  then RequestOptions.set_rewrite o METHOD_MAP.GET BodyNull
         (Headers.delete (RequestOptions.headers o)
                         HEADER_MAP.CONTENT_LENGTH)
  else o.

(** The handler of the ['response'] event. [this] is the client when
    the event fires; the values [send] destructured are those of
    [options this], no code having run on the client in between. *)
Definition onResponse (this : t) (res : IncomingMessage.t)
  : t * list Effect :=
  let o := options this in
  let method := RequestOptions.method o in
  let followRedirect := RequestOptions.followRedirect o in
  let maxRedirectCount := RequestOptions.maxRedirectCount o in
  let requestURL := RequestOptions.requestURL o in
  let parsedURL := RequestOptions.parsedURL o in
  let size := RequestOptions.size o in
  let statusCode := or_default (IncomingMessage.statusCode res) 200 in
  let headers := Headers.new (Some (IncomingMessage.headers res)) in
  let rest := deliver method requestURL size statusCode headers res in
  if isRedirect (Some statusCode) && followRedirect then
    let limit :=
      if JS.truthy_number maxRedirectCount &&
         (maxRedirectCount <=? redirectCount this)
      then onRejected
             (JS.Error ("Maximum redirect reached at: " ++ requestURL))
      else [] in
    let location := Headers.get headers HEADER_MAP.LOCATION in
    let missing :=
      if negb (JS.truthy_string (or_default location ""))
      then onRejected
             (JS.Error ("Redirect location header missing at: "
                        ++ requestURL))
      else [] in
    let o1 := rewrite o statusCode method in
    let count := redirectCount this + 1 in
    match URL_new (JS.String_ location) (Some (URL.toString parsedURL)) with
    | None =>
        (mk o1 count,
         limit ++ missing ++ [Throw (JS.TypeError "Invalid URL")])%list
    | Some target =>
        let this' := mk (RequestOptions.set_parsedURL o1 target) count in
        (* this.send() starts with this.createRequest() *)
        match createRequest this' with
        | inl e => (this', limit ++ missing ++ [Throw e])%list
        | inr _ => (this', limit ++ missing ++ [FulfilWithSend] ++ rest)%list
        end
    end
  else (this, rest).

End Handler.

(** The promise settles with the first call of [resolve] or [reject];
    [next] is the state of the promise of the next hop. An exception
    leaving the handler ends it, the promise staying as it is. *)
Fixpoint settle (effects : list Effect) (next : Settled) : Settled :=
  match effects with
  | [] => Pending
  | Reject reason :: _ => Rejected reason
  | Fulfil response :: _ => Fulfilled response
  | FulfilWithSend :: _ => next
  | Throw _ :: _ => Pending
  | Destroy :: r => settle r next
  end.

Definition sends_again (effects : list Effect) : bool :=
  existsb (fun e => match e with FulfilWithSend => true | _ => false end)
          effects.

(** What a finished pipeline passes to its callback: [null], [undefined]
    or an error. Node's [pipeline] passes [undefined] when the pipeline
    ended without error. *)
Inductive CallbackArg : Type :=
| ArgNull
| ArgUndefined
| ArgError (e : JS.Exn).

(** [pumpCallback]: anything but [null] goes to [onRejected]. *)
Definition pumpCallback (error : CallbackArg) : list Effect :=
  match error with
  | ArgNull => []
  | ArgUndefined => onRejected JS.Undefined
  | ArgError e => onRejected e
  end.

(** The handler left by an exception: nothing after the [throw] ran. *)
Definition threw (effects : list Effect) : bool :=
  existsb (fun e => match e with Throw _ => true | _ => false end) effects.

(** The handler took the deflate branch: a second pipeline reads [res]
    for the sniff. *)
Definition sniffs (method : string) (statusCode : Z) (headers : Headers.t)
  : bool :=
  match Headers.get headers HEADER_MAP.CONTENT_ENCODING with
  | Some codings =>
      negb (String.eqb method METHOD_MAP.HEAD) &&
      negb (statusCode =? 204) && negb (statusCode =? 304) &&
      negb (String.eqb codings COMPRESSION_TYPE.BR) &&
      negb (String.eqb codings COMPRESSION_TYPE.GZIP ||
            String.eqb codings ("x-" ++ COMPRESSION_TYPE.GZIP)) &&
      (String.eqb codings COMPRESSION_TYPE.DEFLATE ||
       String.eqb codings ("x-" ++ COMPRESSION_TYPE.DEFLATE))
  | None => false
  end.

(** What happens once the body of the response has ended: each pipeline
    that reads [res] (the one every handler builds, and the one of the
    sniff) ends without error and calls [pumpCallback] with [undefined].
    A handler that an exception left built no pipeline. The pipelines
    into the decompressors end after these, when the promise has been
    settled by [resolveResponse], and call the same callback with
    [undefined] or with the error of the decompressor; they are not
    recorded. *)
Definition bodyEnded (this : t) (res : IncomingMessage.t)
    (effects : list Effect) : list Effect :=
  if threw effects then []
  else
    (pumpCallback ArgUndefined ++
     (if sniffs (RequestOptions.method (options this))
                (or_default (IncomingMessage.statusCode res) 200)
                (Headers.new (Some (IncomingMessage.headers res)))
      then pumpCallback ArgUndefined else []))%list.

(** A stream that has been piped has nothing left to read. *)
Definition drained (body : Body) : Body :=
  match body with
  | BodyStream _ => BodyStream []
  | _ => body
  end.

(** [writeToRequest]: the body written to the request, and the client
    afterwards. The body is written in full before a response is
    handled; a stream is drained by it, a drained stream pipes nothing
    and ends the request. *)
Definition writeToRequest (this : t) : Body * t :=
  let o := options this in
  (RequestOptions.body o,
   mk (RequestOptions.set_rewrite o (RequestOptions.method o)
         (drained (RequestOptions.body o)) (RequestOptions.headers o))
      (redirectCount this)).

(** One exchange: the request handed to the adapter, the body written,
    what the response handler did, and what the pipeline callbacks did
    when the body of the response had ended. *)
Record Hop : Type := mkHop {
  hop_request : ClientRequest.t;
  hop_body : Body;
  hop_effects : list Effect;
  hop_completion : list Effect
}.

Section Send.

Variable URL_new : URL.parser.
Variable transport : ClientRequest.t -> Body -> Reply.

(** [send()], the hops being bounded by [fuel]. The result is the
    list of exchanges in order and the state of the promise; a
    synchronous exception of [createRequest] is the [inl]. The promise
    settles with the first [resolve] or [reject] among those of the
    handler and, after them, those of the pipeline callbacks. The
    timeout is a duration: Node's [setTimeout] refuses a negative one. *)
Fixpoint send (fuel : nat) (this : t)
  : JS.Exn + (t * list Hop * Settled) :=
  match createRequest this with
  | inl e => inl e
  | inr clientRequest =>
      let timeout := RequestOptions.timeout (options this) in
      let (requestBody, this) := writeToRequest this in
      let hop := mkHop clientRequest requestBody in
      match transport clientRequest requestBody with
      | ReplyResponse res =>
          let (this', effects) := onResponse URL_new this res in
          let completion := bodyEnded this res effects in
          let all := (effects ++ completion)%list in
          if sends_again effects then
            match fuel with
            | O => inr (this', [hop effects completion], settle all Pending)
            | S fuel' =>
                match send fuel' this' with
                | inl _ =>
                    inr (this', [hop effects completion], settle all Pending)
                | inr (this'', hops, next) =>
                    inr (this'', hop effects completion :: hops,
                         settle all next)
                end
            end
          else inr (this', [hop effects completion], settle all Pending)
      | ReplyError e =>
          let effects := onRejected e in
          inr (this, [hop effects []], settle effects Pending)
      | ReplyAbort =>
          let effects :=
            onRejected
              (JS.Error "NodeJS request was aborted by the server") in
          inr (this, [hop effects []], settle effects Pending)
      | ReplyIdle =>
          let effects :=
            if JS.truthy_number timeout
            then onRejected
                   (JS.Error ("NodeJS request timeout in "
                              ++ JS.number_to_string timeout ++ " ms"))
            else [] in
          inr (this, [hop effects []], settle effects Pending)
      end
  end.

End Send.

End RequestClient.

(** [class Request]: the constructor resolves the options, [send]
    delegates to the client. *)
Module Request.

Section Request.

Variable URL_new : URL.parser.
Variable transport : ClientRequest.t -> Body -> Reply.

Definition new (constructorOptions : RequestConstructorOptions.t)
  : JS.Exn + RequestClient.t :=
  match getRequestOptions URL_new constructorOptions with
  | inl e => inl e
  | inr options => inr (RequestClient.new options)
  end.

(** [new Request(constructorOptions).send()]. *)
Definition run (fuel : nat) (constructorOptions : RequestConstructorOptions.t)
  : JS.Exn + (RequestClient.t * list RequestClient.Hop * Settled) :=
  match new constructorOptions with
  | inl e => inl e
  | inr client => RequestClient.send URL_new transport fuel client
  end.

End Request.

End Request.

(* ===================================================================== *)
(** ** Size Guard                                                        *)
(* ===================================================================== *)

Definition byteLength (chunk : list Z) : Z := Z.of_nat (length chunk).

Fixpoint totalLength (chunks : list (list Z)) : Z :=
  match chunks with
  | [] => 0
  | c :: r => byteLength c + totalLength r
  end.

Module SizeGuard.

(** What the consumer of the guarded stream observes. *)
Inductive Event : Type :=
| Data (chunk : list Z)
| ExceededSizeError
| End.

(** Modelled from the spec: the class [ResponseImpl], which receives the
    [size] option, is not among the sources. Section 4.5: the guard
    accumulates the bytes delivered so far; if a positive ceiling is
    configured and the running total exceeds it, the stream is
    terminated and an ExceededSizeError is raised to the consumer; data
    delivered before is not retracted, the pending read is rejected.
    [total] is the running total before [chunks]. *)
Fixpoint guard (size total : Z) (chunks : list (list Z)) : list Event :=
  match chunks with
  | [] => [End]
  | chunk :: rest =>
      let total' := total + byteLength chunk in
      if (0 <? size) && (size <? total')
      then [ExceededSizeError]
      else Data chunk :: guard size total' rest
  end.

Definition run (size : Z) (chunks : list (list Z)) : list Event :=
  guard size 0 chunks.

End SizeGuard.

(** The collector of the earlier [request] helper kept in [Request.ts]:
    every ['data'] event appends the chunk to [res.body]; once the body is
    longer than the ceiling the stream is destroyed and the promise
    rejected. A destroyed stream emits no further event. *)
Module Collector.

Definition maxBuffer : Z := 50 * 1000000.

Record t : Type := mk {
  body : list Z;
  destroyed : bool;
  rejected : option JS.Exn
}.

Definition init : t := mk [] false None.

Section Ceiling.

(** The ceiling, [maxBuffer] in the source. *)
Variable ceiling : Z.

Definition on_data (st : t) (chunk : list Z) : t :=
  if destroyed st then st
  else
    let body' := (body st ++ chunk)%list in
    if ceiling <? byteLength body'
    then mk body' true
            (match rejected st with
             | Some e => Some e
             | None =>
                 Some (JS.Error "Exceed the acceptable buffer length")
             end)
    else mk body' false (rejected st).

Definition collect (chunks : list (list Z)) : t :=
  fold_left on_data chunks init.

End Ceiling.

End Collector.

(* ===================================================================== *)
(** ** A fragment of the platform for the concrete runs                  *)
(* ===================================================================== *)

Module Example.

Definition url (path : string) (query : option string) : URL.t :=
  URL.mk "http:" "example" "" path query "".

(** The values of [new URL(input, base)] on the inputs of the runs
    below; every other input is outside the fragment. *)
Definition URL_new : URL.parser :=
  fun input base =>
    match base with
    | None =>
        if String.eqb input "http://example/a" then Some (url "/a" None)
        else None
    | Some b =>
        if String.eqb b "http://example/a" then
          if String.eqb input "/b" then Some (url "/b" None)
          else if String.eqb input "null" then Some (url "/null" None)
          else None
        else if String.eqb b "http://example/b" then
          if String.eqb input "/c" then Some (url "/c" None)
          else None
        else None
    end.

Definition response (status : Z) (headers : RawHeaders)
    (chunks : list (list Z)) : Reply :=
  ReplyResponse (IncomingMessage.mk (Some status) headers chunks).

Definition options (method : option string) (body : option Body)
    (query : option (list (string * string))) (maxRedirectCount : option Z)
  : RequestConstructorOptions.t :=
  RequestConstructorOptions.mk "http://example/a" method body None query
    None maxRedirectCount None None.

(** A server that redirects [/a] to [/b] and serves [/b]. *)
Definition redirecting (r : ClientRequest.t) (b : Body) : Reply :=
  if String.eqb (ClientRequest.path r) "/a"
  then response 302 [("Location", ["/b"])] []
  else response 200 [] [[104; 105]].

(** A server whose redirect from [/a] carries no Location header. *)
Definition redirecting_nowhere (r : ClientRequest.t) (b : Body) : Reply :=
  if String.eqb (ClientRequest.path r) "/a"
  then response 302 [] []
  else response 200 [] [[104; 105]].

(** A client on [http://example/a], before its first hop. *)
Definition client (method : string) (body : Body) : RequestClient.t :=
  RequestClient.new
    (RequestOptions.mk "http://example/a" None method body true 20 0 0
       (url "/a" None)
       [("accept-encoding", ["gzip,deflate,br"]); ("accept", ["*/*"]);
        ("connection", ["close"])]).

(** A server that moved [/a] to [/b] permanently. *)
Definition moved (r : ClientRequest.t) (b : Body) : Reply :=
  if String.eqb (ClientRequest.path r) "/a"
  then response 301 [("Location", ["/b"])] []
  else response 200 [] [[104; 105]].


(** A server that redirects [/a] to [/b] and [/b] to [/c]. *)
Definition redirecting_twice (r : ClientRequest.t) (b : Body) : Reply :=
  if String.eqb (ClientRequest.path r) "/a"
  then response 302 [("Location", ["/b"])] []
  else if String.eqb (ClientRequest.path r) "/b"
  then response 302 [("Location", ["/c"])] []
  else response 200 [] [[104; 105]].

End Example.

(* ===================================================================== *)
(** ** The earlier client: [class Request], [streamRequest], [request]   *)
(* ===================================================================== *)

(** The first version of the client, kept beside the current one: the
    class [Request] with its setters and [send], and the two helpers
    [streamRequest] ([stream.ts]) and [request] built on it. *)
Module Legacy.

(** [Dict<string>]: an object with string keys, in insertion order. *)
Definition Dict := list (string * string).

Fixpoint lookup (d : Dict) (k : string) : option string :=
  match d with
  | [] => None
  | (k', v) :: r => if String.eqb k' k then Some v else lookup r k
  end.

Definition hasOwnProperty (d : Dict) (k : string) : bool :=
  match lookup d k with Some _ => true | None => false end.

(** [d[k] = v]. *)
Fixpoint assign (d : Dict) (k v : string) : Dict :=
  match d with
  | [] => [(k, v)]
  | (k', v') :: r =>
      if String.eqb k' k then (k', v) :: r else (k', v') :: assign r k v
  end.

Definition supportedCompressions : list string := ["gzip"; "deflate"].

Definition adapterForHttp (protocol : string) : JS.Exn + Adapter :=
  if String.eqb protocol "http:" then inr http
  else if String.eqb protocol "https:" then inr https
  else inl (JS.Error ("Wrong url protocol: " ++ protocol)).

(** The incoming message as the earlier client reads it. *)
Module IncomingMessage.
Record t : Type := mk {
  statusCode : option Z;
  statusMessage : string;
  headers : Dict;
  chunks : list (list Z)
}.
End IncomingMessage.

(** The argument of [adapter.request(options, callback)]. *)
Module Options.
Record t : Type := mk {
  protocol : string;
  host : string;
  port : string;
  path : string;
  method : string;
  headers : Dict
}.
End Options.

Inductive Reply : Type :=
| ReplyResponse (res : IncomingMessage.t)
| ReplyError (e : JS.Exn)
| ReplyIdle.

(** The state of the promise of [send]. *)
Inductive Settled : Type :=
| Pending
| Resolved (stream : Stream.t) (response : IncomingMessage.t)
| Rejected (reason : JS.Exn).

Module Request.

Record t : Type := mk {
  url : URL.t;
  method : string;
  body : string;
  reqHeaders : Dict;
  compressionEnabled : bool;
  redirectEnabled : bool;
  timeoutTime : Z
}.

Definition set_url (this : t) (u : URL.t) : t :=
  mk u (method this) (body this) (reqHeaders this) (compressionEnabled this)
     (redirectEnabled this) (timeoutTime this).

Definition set_reqHeaders (this : t) (h : Dict) : t :=
  mk (url this) (method this) (body this) h (compressionEnabled this)
     (redirectEnabled this) (timeoutTime this).

Definition redirect (this : t) : t :=
  mk (url this) (method this) (body this) (reqHeaders this)
     (compressionEnabled this) true (timeoutTime this).

Definition timeout (this : t) (timeout : Z) : t :=
  mk (url this) (method this) (body this) (reqHeaders this)
     (compressionEnabled this) (redirectEnabled this) timeout.

Definition compress (this : t) : t :=
  mk (url this) (method this) (body this)
     (if negb (hasOwnProperty (reqHeaders this) "accept-encoding")
      then assign (reqHeaders this) "accept-encoding"
                  (join ", " supportedCompressions)
      else reqHeaders this)
     true (redirectEnabled this) (timeoutTime this).

(** The first statement of [send]: with a body, content type and content
    length are filled in where the headers have none. *)
Definition prepare (this : t) : t :=
  if JS.truthy_string (body this) then
    let h := reqHeaders this in
    let h := if negb (hasOwnProperty h "content-type")
             then assign h "content-type" "application/json" else h in
    let h := if negb (hasOwnProperty h "content-length")
             then assign h "content-length"
                    (JS.number_to_string
                       (Z.of_nat (String.length (body this))))
             else h in
    set_reqHeaders this h
  else this.

Definition options (this : t) : Options.t :=
  Options.mk (URL.protocol (url this)) (URL.hostname (url this))
             (URL.port (url this))
             (URL.pathname (url this) ++ URL.search (url this))
             (JS.toUpperCase (method this)) (reqHeaders this).

(** One exchange: the options handed to the adapter and the body
    written, if any. *)
Record Hop : Type := mkHop {
  hop_options : Options.t;
  hop_written : option string
}.

(** The stream the callback resolves with. *)
Definition decode (this : t) (res : IncomingMessage.t) : Stream.t :=
  if compressionEnabled this then
    match lookup (IncomingMessage.headers res) "content-encoding" with
    | Some encodingType =>
        if String.eqb encodingType "gzip"
        then Stream.mk (IncomingMessage.chunks res) [Gunzip]
        else if String.eqb encodingType "deflate"
        then Stream.mk (IncomingMessage.chunks res) [Inflate]
        else Stream.mk (IncomingMessage.chunks res) []
    | None => Stream.mk (IncomingMessage.chunks res) []
    end
  else Stream.mk (IncomingMessage.chunks res) [].

Section Platform.

(** A value of type [unknown], [String(value)] and [JSON.stringify]. *)
Variable V : Type.
Variable String_of : V -> string.
Variable JSON_stringify : list (string * V) -> string.
Variable URL_new : URL.parser.
Variable transport : Options.t -> option string -> Reply.

(** [new Request(url, method)]. *)
Definition new (url method : string) : JS.Exn + t :=
  match URL_new url None with
  | None => inl (JS.TypeError "Invalid URL")
  | Some u => inr (mk u method "" [] false false 0)
  end.

Definition setHeader (this : t) (headerData : list (string * V)) : t :=
  fold_left
    (fun this kv =>
       set_reqHeaders this
         (assign (reqHeaders this) (JS.toLowerCase (fst kv))
                 (String_of (snd kv))))
    headerData this.

Definition setQuery (this : t) (queryData : list (string * V)) : t :=
  fold_left
    (fun this kv =>
       set_url this
         (URL.searchParams_append (url this) (fst kv) (String_of (snd kv))))
    queryData this.

Definition setBody (this : t) (bodyData : list (string * V)) : t :=
  mk (url this) (method this) (JSON_stringify bodyData) (reqHeaders this)
     (compressionEnabled this) (redirectEnabled this) (timeoutTime this).

(** [send()], the hops being bounded by [fuel]: the client as the run
    leaves it, the exchanges in order and the state of the promise. An
    exception thrown in the executor rejects the promise; one thrown in
    the response callback leaves it pending. *)
Fixpoint send (fuel : nat) (this : t) : t * list Hop * Settled :=
  let this := prepare this in
  let options := options this in
  match adapterForHttp (Options.protocol options) with
  | inl e => (this, [], Rejected e)
  | inr _ =>
      let hop :=
        mkHop options
              (if JS.truthy_string (body this) then Some (body this)
               else None) in
      match transport options (hop_written hop) with
      | ReplyResponse res =>
          if JS.truthy_string
               (or_default (lookup (IncomingMessage.headers res) "location")
                           "")
             && redirectEnabled this
          then
            match URL_new
                    (or_default
                       (lookup (IncomingMessage.headers res) "location") "")
                    (Some (URL.toString (url this))) with
            | None => (this, [hop], Pending)
            | Some target =>
                let this' := set_url this target in
                match fuel with
                | O => (this', [hop], Pending)
                | S fuel' =>
                    let '(this'', hops, st) := send fuel' this' in
                    (this'', hop :: hops, st)
                end
            end
          else (this, [hop], Resolved (decode this res) res)
      | ReplyError e => (this, [hop], Rejected e)
      | ReplyIdle =>
          (this, [hop],
           if JS.truthy_number (timeoutTime this)
           then Rejected (JS.Error "Timeout") else Pending)
      end
  end.

End Platform.

End Request.

(** [Options] of the two helpers. *)
Module HelperOptions.
Record t (V : Type) : Type := mk {
  url : string;
  method : option string;
  compress : option bool;
  followRedirects : option bool;
  timeout : option Z;
  headers : option (list (string * V));
  query : option (list (string * V));
  body : option (list (string * V))
}.
Arguments mk {V}.
Arguments url {V}.
Arguments method {V}.
Arguments compress {V}.
Arguments followRedirects {V}.
Arguments timeout {V}.
Arguments headers {V}.
Arguments query {V}.
Arguments body {V}.
End HelperOptions.

Section Helpers.

Variable V : Type.
Variable String_of : V -> string.
Variable JSON_stringify : list (string * V) -> string.
Variable URL_new : URL.parser.
Variable transport : Options.t -> option string -> Reply.

(** The head of both helpers: the request built from the options merged
    over the defaults ([followRedirects] and [compress] on, the timeout
    of the helper). *)
Definition configure (defaultTimeout : Z) (options : HelperOptions.t V)
  : JS.Exn + Request.t :=
  let method := or_default (HelperOptions.method options) "get" in
  let compress := or_default (HelperOptions.compress options) true in
  let followRedirects :=
    or_default (HelperOptions.followRedirects options) true in
  let timeout := or_default (HelperOptions.timeout options) defaultTimeout in
  match Request.new URL_new (HelperOptions.url options) method with
  | inl e => inl e
  | inr req =>
      let req := if JS.truthy_number timeout
                 then Request.timeout req timeout else req in
      let req := if followRedirects then Request.redirect req else req in
      let req := if compress then Request.compress req else req in
      let req := match HelperOptions.headers options with
                 | Some headers => Request.setHeader V String_of req headers
                 | None => req
                 end in
      let req := match HelperOptions.query options with
                 | Some query => Request.setQuery V String_of req query
                 | None => req
                 end in
      let req := match HelperOptions.body options with
                 | Some body => Request.setBody V JSON_stringify req body
                 | None => req
                 end in
      inr req
  end.

(** [`${response.statusCode}`]. *)
Definition status_text (statusCode : option Z) : string :=
  match statusCode with
  | Some n => JS.number_to_string n
  | None => "undefined"
  end.

Definition status_ok (statusCode : option Z) : bool :=
  match statusCode with
  | Some n => JS.truthy_number n && (200 <=? n) && (n <? 300)
  | None => false
  end.

Definition responded (res : IncomingMessage.t) : JS.Exn :=
  JS.Error ("Server responded with "
            ++ status_text (IncomingMessage.statusCode res) ++ ": "
            ++ IncomingMessage.statusMessage res).

(** The promise of [streamRequest]. *)
Inductive StreamSettled : Type :=
| StreamPending
| StreamResolved (stream : Stream.t)
| StreamRejected (reason : JS.Exn).

Definition streamRequest (fuel : nat) (options : HelperOptions.t V)
  : list Request.Hop * StreamSettled :=
  match configure 15000 options with
  | inl e => ([], StreamRejected e)
  | inr req =>
      let '(_, hops, st) := Request.send URL_new transport fuel req in
      (hops,
       match st with
       | Pending => StreamPending
       | Rejected e => StreamRejected e
       | Resolved stream response =>
           if status_ok (IncomingMessage.statusCode response)
           then StreamResolved stream
           else StreamRejected (responded response)
       end)
  end.

End Helpers.

End Legacy.

(** A fragment of the platform for the concrete runs of the earlier
    client: header values are strings already, the body is [{}], and the
    server answers [/a] with a 200 that carries a Location header. *)
Module LegacyExample.

Definition String_of (v : string) : string := v.

Definition JSON_stringify (data : list (string * string)) : string := "{}".

Definition transport (o : Legacy.Options.t) (written : option string)
  : Legacy.Reply :=
  if String.eqb (Legacy.Options.path o) "/a"
  then Legacy.ReplyResponse
         (Legacy.IncomingMessage.mk (Some 200) "OK" [("location", "/b")] [])
  else Legacy.ReplyResponse
         (Legacy.IncomingMessage.mk (Some 200) "OK" [] [[104; 105]]).

Definition client : Legacy.Request.t :=
  Legacy.Request.mk (Example.url "/a" None) "post" "{}" [] true true 0.

Definition options : Legacy.HelperOptions.t string :=
  Legacy.HelperOptions.mk "http://example/a" (Some "post") None None None
    (Some [("Accept-Encoding", "identity"); ("X-Id", "1");
           ("ACCEPT-ENCODING", "br")])
    None None.

End LegacyExample.

(* ===================================================================== *)
(** ** Vocabulary of the statements                                      *)
(* ===================================================================== *)

(** Two strings are the same up to the case of their ASCII letters. *)
Definition same_ignoring_case (a b : string) : Prop :=
  JS.toLowerCase a = JS.toLowerCase b.

(** A method for which a body is disallowed: GET or HEAD, in any case. *)
Definition bodyless (method : string) : Prop :=
  same_ignoring_case method "GET" \/ same_ignoring_case method "HEAD".

(** The content-encoding tokens the Decoding Pipeline recognizes. *)
Definition recognized (codings : string) : Prop :=
  In codings ["gzip"; "x-gzip"; "br"; "deflate"; "x-deflate"].

Definition deflate_token (codings : string) : Prop :=
  codings = "deflate" \/ codings = "x-deflate".

(** The body of a deflate-labelled response delivers a first chunk, which
    the sniff waits for. *)
Definition sniffable (headers : Headers.t) (res : IncomingMessage.t) : Prop :=
  forall codings,
    Headers.get headers HEADER_MAP.CONTENT_ENCODING = Some codings ->
    deflate_token codings ->
    IncomingMessage.chunks res <> [].

(** The handler resolved with a response whose body goes through a
    decompressor. *)
Definition transform_applied (effects : list Effect) : Prop :=
  exists r, In (Fulfil r) effects /\ decoded (ResponseImpl.body r) = true.

(** The gate of the Decoding Pipeline as the specification words it. *)
Definition decoding_gate (method : string) (headers : Headers.t)
    (statusCode : Z) : Prop :=
  method <> "HEAD" /\
  Headers.get headers HEADER_MAP.CONTENT_ENCODING <> None /\
  statusCode <> 204 /\ statusCode <> 304.

(** The requests of a run, in order: path, method and body written. *)
Definition requests_of (hops : list RequestClient.Hop)
  : list (string * string * Body) :=
  map (fun h => (ClientRequest.path (RequestClient.hop_request h),
                 ClientRequest.method (RequestClient.hop_request h),
                 RequestClient.hop_body h)) hops.

(** The character occurs in the string. *)
Fixpoint occurs (c : ascii) (s : string) : bool :=
  match s with
  | EmptyString => false
  | String x r => Ascii.eqb x c || occurs c r
  end.

(** The rejection the hop bound raises. *)
Definition RedirectLimitError (requestURL : string) : JS.Exn :=
  JS.Error ("Maximum redirect reached at: " ++ requestURL).

(** The rejection a redirect without Location raises. *)
Definition RedirectMissingLocationError (requestURL : string) : JS.Exn :=
  JS.Error ("Redirect location header missing at: " ++ requestURL).

(* ===================================================================== *)
(** * Properties                                                         *)
(* ===================================================================== *)

(** ** Letter case *)

Lemma upper_lower_char (c : ascii) :
  JS.upper_char (JS.lower_char c) = JS.upper_char c.
Proof.
  destruct c as [b0 b1 b2 b3 b4 b5 b6 b7].
  destruct b0, b1, b2, b3, b4, b5, b6, b7; reflexivity.
Qed.

Lemma toUpperCase_toLowerCase (s : string) :
  JS.toUpperCase (JS.toLowerCase s) = JS.toUpperCase s.
Proof.
  induction s as [|c s IH]; simpl; [reflexivity|].
  unfold JS.toUpperCase, JS.toLowerCase in *; simpl.
  now rewrite upper_lower_char, IH.
Qed.

Lemma same_ignoring_case_upper (a b : string) :
  same_ignoring_case a b -> JS.toUpperCase a = JS.toUpperCase b.
Proof.
  unfold same_ignoring_case; intros H.
  rewrite <- (toUpperCase_toLowerCase a), <- (toUpperCase_toLowerCase b).
  now rewrite H.
Qed.

Lemma bodyless_upper (m : string) :
  bodyless m ->
  JS.toUpperCase m = METHOD_MAP.GET \/ JS.toUpperCase m = METHOD_MAP.HEAD.
Proof.
  intros [H | H]; apply same_ignoring_case_upper in H; [left | right]; exact H.
Qed.

(** ** Header Store *)

Lemma lookup_delete (h : Headers.t) (name : string) :
  Headers.lookup (Headers.delete h name) (Headers.key name) = None.
Proof.
  induction h as [|[k vs] h IH]; simpl; [reflexivity|].
  destruct (String.eqb k (Headers.key name)) eqn:E; simpl.
  - exact IH.
  - rewrite E. exact IH.
Qed.

Lemma has_delete (h : Headers.t) (name : string) :
  Headers.has (Headers.delete h name) name = false.
Proof. unfold Headers.has. now rewrite lookup_delete. Qed.

Lemma get_delete (h : Headers.t) (name : string) :
  Headers.get (Headers.delete h name) name = None.
Proof. unfold Headers.get. now rewrite lookup_delete. Qed.

(** ** Request Resolver *)

(** C7. Resolving options whose body is not null and whose method is GET
    or HEAD in any letter case (the default method included) throws the
    validation error, a [TypeError], whatever the body holds; the
    exception leaves the constructor of [Request], so [send] is never
    reached and no request is handed to the transport. *)
Theorem body_with_bodyless_method_fails :
  forall (URL_new : URL.parser) (transport : ClientRequest.t -> Body -> Reply)
         (fuel : nat) (co : RequestConstructorOptions.t) (b : Body),
    RequestConstructorOptions.body co = Some b ->
    b <> BodyNull ->
    bodyless (or_default (RequestConstructorOptions.method co)
                         (DefaultOptions.method DEFAULT_OPTIONS)) ->
    getRequestOptions URL_new co =
      inl (JS.TypeError "Request with GET/HEAD method cannot have body") /\
    Request.run URL_new transport fuel co =
      inl (JS.TypeError "Request with GET/HEAD method cannot have body").
Proof.
  intros URL_new transport fuel co b Hb Hnull Hm.
  assert (G : getRequestOptions URL_new co =
              inl (JS.TypeError "Request with GET/HEAD method cannot have body")).
  { unfold getRequestOptions. rewrite Hb. cbn [or_default].
    assert (Hn : body_is_null b = false) by (destruct b; congruence || reflexivity).
    rewrite Hn. cbn [negb andb].
    apply bodyless_upper in Hm.
    destruct Hm as [-> | ->]; reflexivity. }
  split; [exact G|].
  unfold Request.run, Request.new. now rewrite G.
Qed.

Lemma body_with_bodyless_method_fails_witness :
  getRequestOptions Example.URL_new
    (Example.options (Some "hEaD") (Some (BodyString "")) None None) =
    inl (JS.TypeError "Request with GET/HEAD method cannot have body") /\
  Request.run Example.URL_new Example.redirecting 3
    (Example.options (Some "hEaD") (Some (BodyString "")) None None) =
    inl (JS.TypeError "Request with GET/HEAD method cannot have body").
Proof.
  apply (body_with_bodyless_method_fails Example.URL_new Example.redirecting 3
           (Example.options (Some "hEaD") (Some (BodyString "")) None None)
           (BodyString "")).
  - reflexivity.
  - discriminate.
  - right. reflexivity.
Defined.

(** ** Query merge *)

(** One pass of the form encoder is undone by one pass of the decoder:
    this is what a query pair encoded exactly once looks like to the
    receiver. *)
Lemma decode_serialize_char (c : ascii) (r : string) :
  URLSearchParams.decode_string
    (match URLSearchParams.form_keep c with
     | Some out => out
     | None => JS.percent_byte c
     end ++ r) =
  String c (URLSearchParams.decode_string r).
Proof.
  destruct c as [b0 b1 b2 b3 b4 b5 b6 b7].
  destruct b0, b1, b2, b3, b4, b5, b6, b7; reflexivity.
Qed.

Lemma decode_serialize_string (s : string) :
  URLSearchParams.decode_string (URLSearchParams.serialize_string s) = s.
Proof.
  induction s as [|c s IH]; [reflexivity|].
  unfold URLSearchParams.serialize_string in *; cbn [JS.encode_with].
  pose proof (decode_serialize_char c
                (JS.encode_with URLSearchParams.form_keep s)) as H.
  destruct (URLSearchParams.form_keep c); rewrite H, IH; reflexivity.
Qed.

(** The merge of the earlier resolver kept in [typings.d.ts],
    [searchParams.append(queryKey, queryValue)], encodes once. *)
Lemma append_encodes_once :
  let u := URL.searchParams_append (Example.url "/a" None) "a b" "c&d" in
  URL.search u = "?a+b=c%26d" /\
  URLSearchParams.get (URL.searchParams u) "a b" = Some "c&d".
Proof. split; reflexivity. Qed.

(** C5. The query [{ "a b": "c&d" }] merged by [getRequestOptions] reaches
    the URL encoded twice: [encodeURIComponent] escapes the space and the
    ampersand, and [searchParams.set] escapes the percent signs again.
    Decoding the query once gives back the escaped strings, not the key
    and the value. *)
Theorem query_merge_double_encodes :
  exists o : RequestOptions.t,
    getRequestOptions Example.URL_new
      (Example.options None None (Some [("a b", "c&d")]) None) = inr o /\
    URL.search (RequestOptions.parsedURL o) = "?a%2520b=c%2526d" /\
    URL.searchParams (RequestOptions.parsedURL o) = [("a%20b", "c%26d")] /\
    URLSearchParams.get (URL.searchParams (RequestOptions.parsedURL o)) "a b"
      = None.
Proof.
  eexists. split; [reflexivity|].
  repeat split; reflexivity.
Qed.

(** ** Decoding Pipeline *)


Lemma eqb_false_of_neq (a b : string) : a <> b -> String.eqb a b = false.
Proof. intros H. now apply String.eqb_neq. Qed.

Lemma zeqb_false_of_neq (a b : Z) : a <> b -> (a =? b) = false.
Proof. intros H. now apply Z.eqb_neq. Qed.

(** [deliver] resolves at most once, with the status, headers, URL and
    size it was given. *)
Lemma deliver_shape method requestURL size statusCode headers res :
  RequestClient.deliver method requestURL size statusCode headers res = [] \/
  exists body,
    RequestClient.deliver method requestURL size statusCode headers res =
    [Fulfil (ResponseImpl.mk body requestURL statusCode headers size)].
Proof.
  unfold RequestClient.deliver.
  destruct (Headers.get headers HEADER_MAP.CONTENT_ENCODING) as [codings|];
    [|right; eexists; reflexivity].
  destruct (negb (String.eqb method METHOD_MAP.HEAD) &&
            negb (statusCode =? 204) && negb (statusCode =? 304));
    [|right; eexists; reflexivity].
  destruct (String.eqb codings COMPRESSION_TYPE.BR);
    [right; eexists; reflexivity|].
  destruct (String.eqb codings COMPRESSION_TYPE.GZIP ||
            String.eqb codings ("x-" ++ COMPRESSION_TYPE.GZIP));
    [right; eexists; reflexivity|].
  destruct (String.eqb codings COMPRESSION_TYPE.DEFLATE ||
            String.eqb codings ("x-" ++ COMPRESSION_TYPE.DEFLATE));
    [|right; eexists; reflexivity].
  destruct (IncomingMessage.chunks res) as [|chunk rest]; [left; reflexivity|].
  destruct (RequestClient.sniff_zlib chunk); right; eexists; reflexivity.
Qed.

Lemma deflate_token_eqb (codings : string) :
  String.eqb codings COMPRESSION_TYPE.DEFLATE ||
  String.eqb codings ("x-" ++ COMPRESSION_TYPE.DEFLATE) = true <->
  deflate_token codings.
Proof.
  unfold deflate_token. rewrite orb_true_iff, !String.eqb_eq. reflexivity.
Qed.

(** With a first chunk to sniff, [deliver] resolves exactly once. *)
Lemma deliver_resolves method requestURL size statusCode headers res :
  sniffable headers res ->
  exists body,
    RequestClient.deliver method requestURL size statusCode headers res =
    [Fulfil (ResponseImpl.mk body requestURL statusCode headers size)].
Proof.
  intros Hs.
  destruct (deliver_shape method requestURL size statusCode headers res)
    as [E | E]; [|exact E].
  exfalso. revert E. unfold RequestClient.deliver.
  destruct (Headers.get headers HEADER_MAP.CONTENT_ENCODING) as [codings|] eqn:G;
    [|discriminate].
  destruct (negb (String.eqb method METHOD_MAP.HEAD) &&
            negb (statusCode =? 204) && negb (statusCode =? 304));
    [|discriminate].
  destruct (String.eqb codings COMPRESSION_TYPE.BR); [discriminate|].
  destruct (String.eqb codings COMPRESSION_TYPE.GZIP ||
            String.eqb codings ("x-" ++ COMPRESSION_TYPE.GZIP));
    [discriminate|].
  destruct (String.eqb codings COMPRESSION_TYPE.DEFLATE ||
            String.eqb codings ("x-" ++ COMPRESSION_TYPE.DEFLATE)) eqn:D;
    [|discriminate].
  apply deflate_token_eqb in D.
  specialize (Hs codings G D).
  destruct (IncomingMessage.chunks res) as [|chunk rest]; [congruence|].
  destruct (RequestClient.sniff_zlib chunk); discriminate.
Qed.

(** A response that is not a followed redirect goes straight to
    [deliver], the client untouched. *)
Lemma onResponse_terminal (URL_new : URL.parser) (this : RequestClient.t)
    (res : IncomingMessage.t) :
  let o := RequestClient.options this in
  let statusCode := or_default (IncomingMessage.statusCode res) 200 in
  isRedirect (Some statusCode) && RequestOptions.followRedirect o = false ->
  RequestClient.onResponse URL_new this res =
  (this,
   RequestClient.deliver (RequestOptions.method o) (RequestOptions.requestURL o)
     (RequestOptions.size o) statusCode
     (Headers.new (Some (IncomingMessage.headers res))) res).
Proof.
  intros o statusCode H. unfold RequestClient.onResponse.
  fold o. fold statusCode. now rewrite H.
Qed.




Lemma recognized_eqb (codings : string) :
  recognized codings <->
  String.eqb codings COMPRESSION_TYPE.BR ||
  (String.eqb codings COMPRESSION_TYPE.GZIP ||
   String.eqb codings ("x-" ++ COMPRESSION_TYPE.GZIP)) ||
  (String.eqb codings COMPRESSION_TYPE.DEFLATE ||
   String.eqb codings ("x-" ++ COMPRESSION_TYPE.DEFLATE)) = true.
Proof.
  unfold recognized. rewrite !orb_true_iff, !String.eqb_eq. cbn [In].
  unfold COMPRESSION_TYPE.BR, COMPRESSION_TYPE.GZIP, COMPRESSION_TYPE.DEFLATE.
  cbn [append].
  split; intros H; repeat destruct H as [H | H]; subst; auto 10; contradiction.
Qed.

Lemma gate_eqb (method : string) (statusCode : Z) :
  negb (String.eqb method METHOD_MAP.HEAD) &&
  negb (statusCode =? 204) && negb (statusCode =? 304) = true <->
  method <> "HEAD" /\ statusCode <> 204 /\ statusCode <> 304.
Proof.
  rewrite !andb_true_iff, !negb_true_iff, String.eqb_neq, !Z.eqb_neq.
  unfold METHOD_MAP.HEAD. tauto.
Qed.

(** A stream with the pass-through stage alone hands the bytes of the
    source on as they are. *)
Lemma output_passthrough (zlib : Transform -> list Z -> option (list Z))
    (res : IncomingMessage.t) :
  output zlib (pump_res res PassThrough) =
  Some (concat (IncomingMessage.chunks res)).
Proof. reflexivity. Qed.

(** C6, as stated, fails on a token that is not recognized: for a GET
    response with status 200 and [Content-Encoding: identity] the three
    conditions of the gate hold, and no decompressor is applied. *)
Lemma unrecognized_encoding_not_decoded :
  let headers := Headers.new (Some [("Content-Encoding", ["identity"])]) in
  let res :=
    IncomingMessage.mk (Some 200) [("Content-Encoding", ["identity"])]
                       [[104; 105]] in
  ~ (transform_applied
       (RequestClient.deliver "GET" "http://example/a" 0 200 headers res) <->
     decoding_gate "GET" headers 200).
Proof.
  intros headers res [_ H].
  assert (G : decoding_gate "GET" headers 200).
  { unfold decoding_gate. repeat split; try discriminate; lia. }
  destruct (H G) as (r & Hin & Hd).
  cbn in Hin. destruct Hin as [Hin | []].
  injection Hin as <-. discriminate Hd.
Qed.

(** C6, as the code has it. For a response whose body can be sniffed
    where the label is deflate, [deliver] resolves once, and the body goes
    through a decompressor if and only if the method is not HEAD, the
    content-encoding header is present AND is one of the recognized
    tokens, and the status is neither 204 nor 304. A body that goes through
    no decompressor reaches the consumer unmodified; this is the case in
    particular when the header is absent or its token is not recognized. *)
Theorem decoding_applied_iff :
  forall (zlib : Transform -> list Z -> option (list Z))
         (method requestURL : string) (size statusCode : Z)
         (headers : Headers.t) (res : IncomingMessage.t),
    sniffable headers res ->
    exists body : Stream.t,
      RequestClient.deliver method requestURL size statusCode headers res =
        [Fulfil (ResponseImpl.mk body requestURL statusCode headers size)] /\
      (decoded body = true <->
         method <> "HEAD" /\
         (exists codings,
            Headers.get headers HEADER_MAP.CONTENT_ENCODING = Some codings /\
            recognized codings) /\
         statusCode <> 204 /\ statusCode <> 304) /\
      (decoded body = false ->
         output zlib body = Some (concat (IncomingMessage.chunks res))) /\
      ((forall codings,
          Headers.get headers HEADER_MAP.CONTENT_ENCODING = Some codings ->
          ~ recognized codings) ->
       output zlib body = Some (concat (IncomingMessage.chunks res))).
Proof.
  intros zlib method requestURL size statusCode headers res Hs.
  unfold sniffable in Hs. unfold RequestClient.deliver.
  destruct (Headers.get headers HEADER_MAP.CONTENT_ENCODING)
    as [codings|] eqn:G.
  2:{ eexists; split; [reflexivity|].
      split; [split; [intro D | intro H] | split; [intro D | intro H]];
        try reflexivity.
      - discriminate D.
      - destruct H as (_ & (c & Hc & _) & _). discriminate Hc. }
  destruct (negb (String.eqb method METHOD_MAP.HEAD) &&
            negb (statusCode =? 204) && negb (statusCode =? 304)) eqn:Gate.
  2:{ eexists; split; [reflexivity|].
      split; [split; [intro D | intro H] | split; [intro D | intro H]];
        try reflexivity.
      - discriminate D.
      - exfalso. destruct H as (Hm & _ & H204 & H304).
        assert (T : negb (String.eqb method METHOD_MAP.HEAD) &&
                    negb (statusCode =? 204) && negb (statusCode =? 304) = true)
          by (apply gate_eqb; auto).
        congruence. }
  apply gate_eqb in Gate. destruct Gate as (Hm & H204 & H304).
  pose proof (recognized_eqb codings) as R.
  assert (Applied :
    forall stage, is_decoder stage = true ->
      (String.eqb codings COMPRESSION_TYPE.BR ||
       (String.eqb codings COMPRESSION_TYPE.GZIP ||
        String.eqb codings ("x-" ++ COMPRESSION_TYPE.GZIP)) ||
       (String.eqb codings COMPRESSION_TYPE.DEFLATE ||
        String.eqb codings ("x-" ++ COMPRESSION_TYPE.DEFLATE)) = true) ->
      let body := pump (pump_res res PassThrough) stage in
      (decoded body = true <->
         method <> "HEAD" /\
         (exists codings0, Some codings = Some codings0 /\ recognized codings0) /\
         statusCode <> 204 /\ statusCode <> 304) /\
      (decoded body = false ->
         output zlib body = Some (concat (IncomingMessage.chunks res))) /\
      ((forall codings0, Some codings = Some codings0 -> ~ recognized codings0) ->
       output zlib body = Some (concat (IncomingMessage.chunks res)))).
  { intros stage Hd Hr body.
    assert (Hb : decoded body = true)
      by (unfold body, decoded, pump, pump_res; cbn; now rewrite Hd).
    split; [split; [intro D | intro H] | split; [intro D | intro H]].
    - repeat split; auto. exists codings. split; [reflexivity|]. now apply R.
    - exact Hb.
    - congruence.
    - exfalso. apply (H codings eq_refl). now apply R. }
  destruct (String.eqb codings COMPRESSION_TYPE.BR) eqn:Br.
  { eexists; split; [reflexivity|]. apply Applied; reflexivity. }
  destruct (String.eqb codings COMPRESSION_TYPE.GZIP ||
            String.eqb codings ("x-" ++ COMPRESSION_TYPE.GZIP)) eqn:Gz.
  { eexists; split; [reflexivity|]. apply Applied; reflexivity. }
  destruct (String.eqb codings COMPRESSION_TYPE.DEFLATE ||
            String.eqb codings ("x-" ++ COMPRESSION_TYPE.DEFLATE)) eqn:Df.
  { assert (Hc : IncomingMessage.chunks res <> [])
      by (apply (Hs codings eq_refl); apply deflate_token_eqb; exact Df).
    destruct (IncomingMessage.chunks res) as [|chunk rest] eqn:Ch;
      [congruence|].
    destruct (RequestClient.sniff_zlib chunk);
      (eexists; split; [reflexivity|]; apply Applied; reflexivity). }
  eexists; split; [reflexivity|].
  split; [split; [intro D | intro H] | split; [intro D | intro H]];
    try reflexivity.
  - discriminate D.
  - exfalso. destruct H as (_ & (c & Hc & Hr) & _).
    injection Hc as <-. apply R in Hr. cbn in Hr. discriminate Hr.
Qed.

Lemma decoding_applied_iff_witness :
  exists body : Stream.t,
    RequestClient.deliver "GET" "http://example/a" 0 200
      [("content-encoding", ["gzip"])]
      (IncomingMessage.mk (Some 200) [("Content-Encoding", ["gzip"])]
                          [[31; 139]]) =
      [Fulfil (ResponseImpl.mk body "http://example/a" 200
                 [("content-encoding", ["gzip"])] 0)] /\
    (decoded body = true <->
       "GET" <> "HEAD" /\
       (exists codings,
          Headers.get [("content-encoding", ["gzip"])]
                      HEADER_MAP.CONTENT_ENCODING = Some codings /\
          recognized codings) /\
       200 <> 204 /\ 200 <> 304) /\
    (decoded body = false ->
       output (fun _ _ => None) body = Some (concat [[31; 139]])) /\
    ((forall codings,
        Headers.get [("content-encoding", ["gzip"])]
                    HEADER_MAP.CONTENT_ENCODING = Some codings ->
        ~ recognized codings) ->
     output (fun _ _ => None) body = Some (concat [[31; 139]])).
Proof.
  apply (decoding_applied_iff (fun _ _ => None) "GET" "http://example/a" 0 200
           [("content-encoding", ["gzip"])]
           (IncomingMessage.mk (Some 200) [("Content-Encoding", ["gzip"])]
                               [[31; 139]])).
  intros codings _ _. discriminate.
Defined.

(** ** Redirect Engine *)

(** A followed redirect counts one hop, applies [rewrite] to the options
    and at most replaces the parsed URL. *)
Lemma onResponse_followed (URL_new : URL.parser) (this : RequestClient.t)
    (res : IncomingMessage.t) :
  let o := RequestClient.options this in
  let statusCode := or_default (IncomingMessage.statusCode res) 200 in
  let this' := fst (RequestClient.onResponse URL_new this res) in
  isRedirect (Some statusCode) && RequestOptions.followRedirect o = true ->
  RequestClient.redirectCount this' = RequestClient.redirectCount this + 1 /\
  exists u,
    RequestClient.options this' =
    RequestOptions.set_parsedURL
      (RequestClient.rewrite o statusCode (RequestOptions.method o)) u.
Proof.
  intros o statusCode this' H. unfold this', RequestClient.onResponse.
  fold o. fold statusCode. rewrite H.
  destruct (URL_new _ _) as [target|].
  - destruct (RequestClient.createRequest _); cbn [fst];
      (split; [reflexivity | exists target; reflexivity]).
  - cbn [fst]. split; [reflexivity|].
    exists (RequestOptions.parsedURL
              (RequestClient.rewrite o statusCode (RequestOptions.method o))).
    cbn [RequestClient.options].
    destruct (RequestClient.rewrite o statusCode (RequestOptions.method o));
      reflexivity.
Qed.

(** The handler ends with [deliver] unless an exception left it. *)
Lemma onResponse_delivers (URL_new : URL.parser) (this : RequestClient.t)
    (res : IncomingMessage.t) :
  let o := RequestClient.options this in
  let statusCode := or_default (IncomingMessage.statusCode res) 200 in
  let effects := snd (RequestClient.onResponse URL_new this res) in
  (exists before e, effects = (before ++ [Throw e])%list) \/
  (exists before,
     effects =
     (before ++
      RequestClient.deliver (RequestOptions.method o)
        (RequestOptions.requestURL o) (RequestOptions.size o) statusCode
        (Headers.new (Some (IncomingMessage.headers res))) res)%list).
Proof.
  intros o statusCode effects. unfold effects, RequestClient.onResponse.
  fold o. fold statusCode.
  destruct (isRedirect (Some statusCode) && RequestOptions.followRedirect o).
  - destruct (URL_new _ _) as [target|].
    + destruct (RequestClient.createRequest _) as [e|req]; cbn [snd].
      * left. eexists. exists e. rewrite app_assoc. reflexivity.
      * right. eexists. rewrite !app_assoc. reflexivity.
    + left. cbn [snd]. eexists. eexists. rewrite app_assoc. reflexivity.
  - right. exists []. reflexivity.
Qed.

(** C3, as stated, fails for a write method other than POST: PUT with a
    body, answered by 301, goes to the next hop as PUT with its body. *)
Lemma put_redirect_301_not_rewritten :
  exists this hops st,
    Request.run Example.URL_new Example.moved 3
      (Example.options (Some "put") (Some (BodyString "x")) None None) =
      inr (this, hops, st) /\
    requests_of hops =
      [("/a", "PUT", BodyString "x"); ("/b", "PUT", BodyString "x")] /\
    ~ (RequestOptions.method (RequestClient.options this) = METHOD_MAP.GET /\
       RequestOptions.body (RequestClient.options this) = BodyNull).
Proof.
  do 3 eexists. split; [reflexivity|]. split; [reflexivity|].
  cbn. intros [H _]. discriminate H.
Qed.

(** C3, as the code has it. On a followed redirect, a 303 to any method,
    and a 301 or 302 to POST, make the next hop a GET without body and
    without content-length header; a 301 or 302 to any method other than
    POST (read methods, and PUT, PATCH, DELETE alike) leaves method, body
    and headers as they were. *)
Theorem redirect_rewrite_rules :
  forall (URL_new : URL.parser) (this : RequestClient.t)
         (res : IncomingMessage.t) (s : Z),
    IncomingMessage.statusCode res = Some s ->
    RequestOptions.followRedirect (RequestClient.options this) = true ->
    let o := RequestClient.options this in
    let o' :=
      RequestClient.options (fst (RequestClient.onResponse URL_new this res)) in
    ((s = 303 \/
      ((s = 301 \/ s = 302) /\ RequestOptions.method o = METHOD_MAP.POST)) ->
     RequestOptions.method o' = METHOD_MAP.GET /\
     RequestOptions.body o' = BodyNull /\
     RequestOptions.headers o' =
       Headers.delete (RequestOptions.headers o) HEADER_MAP.CONTENT_LENGTH /\
     Headers.has (RequestOptions.headers o') HEADER_MAP.CONTENT_LENGTH = false)
    /\
    ((s = 301 \/ s = 302) ->
     RequestOptions.method o <> METHOD_MAP.POST ->
     RequestOptions.method o' = RequestOptions.method o /\
     RequestOptions.body o' = RequestOptions.body o /\
     RequestOptions.headers o' = RequestOptions.headers o).
Proof.
  intros URL_new this res s Hs Hf o o'.
  assert (F : forall (R : isRedirect (Some s) = true),
             exists u, o' = RequestOptions.set_parsedURL
                              (RequestClient.rewrite o s (RequestOptions.method o)) u).
  { intros R.
    pose proof (onResponse_followed URL_new this res) as H.
    cbv zeta in H. rewrite Hs in H. cbn [or_default] in H.
    fold o in H. unfold o in Hf. fold o in Hf. rewrite R, Hf in H.
    destruct (H eq_refl) as (_ & u & Hu). exists u. exact Hu. }
  split.
  - intros Hc.
    assert (R : isRedirect (Some s) = true)
      by (destruct Hc as [-> | [[-> | ->] _]]; reflexivity).
    destruct (F R) as (u & ->).
    assert (W : RequestClient.rewrite o s (RequestOptions.method o) =
                RequestOptions.set_rewrite o METHOD_MAP.GET BodyNull
                  (Headers.delete (RequestOptions.headers o)
                                  HEADER_MAP.CONTENT_LENGTH)).
    { unfold RequestClient.rewrite.
      destruct Hc as [-> | [[-> | ->] ->]]; reflexivity. }
    rewrite W. cbn.
    repeat split. apply has_delete.
  - intros Hc Hm.
    assert (R : isRedirect (Some s) = true)
      by (destruct Hc as [-> | ->]; reflexivity).
    destruct (F R) as (u & ->).
    assert (W : RequestClient.rewrite o s (RequestOptions.method o) = o).
    { unfold RequestClient.rewrite.
      rewrite (eqb_false_of_neq _ _ Hm).
      destruct Hc as [-> | ->]; reflexivity. }
    rewrite W. cbn. repeat split.
Qed.

Lemma redirect_rewrite_rules_witness :
  let this := Example.client "POST" (BodyString "x") in
  let res := IncomingMessage.mk (Some 302) [("Location", ["/b"])] [] in
  let o := RequestClient.options this in
  let o' :=
    RequestClient.options
      (fst (RequestClient.onResponse Example.URL_new this res)) in
  ((302 = 303 \/
    ((302 = 301 \/ 302 = 302) /\ RequestOptions.method o = METHOD_MAP.POST)) ->
   RequestOptions.method o' = METHOD_MAP.GET /\
   RequestOptions.body o' = BodyNull /\
   RequestOptions.headers o' =
     Headers.delete (RequestOptions.headers o) HEADER_MAP.CONTENT_LENGTH /\
   Headers.has (RequestOptions.headers o') HEADER_MAP.CONTENT_LENGTH = false)
  /\
  ((302 = 301 \/ 302 = 302) ->
   RequestOptions.method o <> METHOD_MAP.POST ->
   RequestOptions.method o' = RequestOptions.method o /\
   RequestOptions.body o' = RequestOptions.body o /\
   RequestOptions.headers o' = RequestOptions.headers o).
Proof.
  intros this res.
  apply (redirect_rewrite_rules Example.URL_new this res 302); reflexivity.
Defined.

(** C10. A response without status code is handled as a 200: it is not a
    redirect ([isRedirect] of the missing code is false, and so is
    [isRedirect] of the 200 the handler works with), the client is left
    as it is and no further hop is sent; the handler goes to [deliver]
    with status 200, every response it resolves with carries 200, and it
    does resolve with one whenever the body can be sniffed where the
    label is deflate. *)
Theorem missing_status_is_200 :
  forall (URL_new : URL.parser) (this : RequestClient.t)
         (res : IncomingMessage.t),
    IncomingMessage.statusCode res = None ->
    let o := RequestClient.options this in
    let headers := Headers.new (Some (IncomingMessage.headers res)) in
    let effects := snd (RequestClient.onResponse URL_new this res) in
    isRedirect (IncomingMessage.statusCode res) = false /\
    RequestClient.onResponse URL_new this res =
      (this,
       RequestClient.deliver (RequestOptions.method o)
         (RequestOptions.requestURL o) (RequestOptions.size o) 200 headers res)
    /\
    RequestClient.sends_again effects = false /\
    (forall r, In (Fulfil r) effects -> ResponseImpl.statusCode r = 200) /\
    (sniffable headers res ->
     exists r,
       effects = [Fulfil r] /\ ResponseImpl.statusCode r = 200 /\
       RequestClient.settle effects Pending = Fulfilled r).
Proof.
  intros URL_new this res Hs o headers effects.
  assert (E : RequestClient.onResponse URL_new this res =
              (this,
               RequestClient.deliver (RequestOptions.method o)
                 (RequestOptions.requestURL o) (RequestOptions.size o) 200
                 headers res)).
  { pose proof (onResponse_terminal URL_new this res) as H.
    cbv zeta in H. rewrite Hs in H. cbn [or_default] in H.
    apply H. reflexivity. }
  split; [rewrite Hs; reflexivity|].
  split; [exact E|].
  unfold effects. rewrite E. cbn [snd].
  destruct (deliver_shape (RequestOptions.method o)
              (RequestOptions.requestURL o) (RequestOptions.size o) 200
              headers res) as [D | (body & D)].
  - rewrite D. split; [reflexivity|]. split; [intros r []|].
    intros S. destruct (deliver_resolves (RequestOptions.method o)
                          (RequestOptions.requestURL o) (RequestOptions.size o)
                          200 headers res S) as (body & D').
    congruence.
  - rewrite D. split; [reflexivity|]. split.
    + intros r [H | []]. injection H as <-. reflexivity.
    + intros _. eexists. repeat split.
Qed.

Lemma missing_status_is_200_witness :
  let this := Example.client "GET" BodyNull in
  let res := IncomingMessage.mk None [("Location", ["/b"])] [[104; 105]] in
  let o := RequestClient.options this in
  let headers := Headers.new (Some (IncomingMessage.headers res)) in
  let effects := snd (RequestClient.onResponse Example.URL_new this res) in
  isRedirect (IncomingMessage.statusCode res) = false /\
  RequestClient.onResponse Example.URL_new this res =
    (this,
     RequestClient.deliver (RequestOptions.method o)
       (RequestOptions.requestURL o) (RequestOptions.size o) 200 headers res)
  /\
  RequestClient.sends_again effects = false /\
  (forall r, In (Fulfil r) effects -> ResponseImpl.statusCode r = 200) /\
  (sniffable headers res ->
   exists r,
     effects = [Fulfil r] /\ ResponseImpl.statusCode r = 200 /\
     RequestClient.settle effects Pending = Fulfilled r).
Proof.
  intros this res.
  apply (missing_status_is_200 Example.URL_new this res).
  reflexivity.
Defined.

(** With the hop bound set to 0 the handler never raises the limit
    error: the test [maxRedirectCount && ...] is false at once. *)
Lemma zero_bound_never_limits (URL_new : URL.parser) (this : RequestClient.t)
    (res : IncomingMessage.t) :
  RequestOptions.maxRedirectCount (RequestClient.options this) = 0 ->
  ~ In (Reject (RedirectLimitError
                  (RequestOptions.requestURL (RequestClient.options this))))
       (snd (RequestClient.onResponse URL_new this res)).
Proof.
  intros Hz Hin.
  assert (Hd : forall m u sz st h,
             ~ In (Reject (RedirectLimitError
                    (RequestOptions.requestURL (RequestClient.options this))))
                  (RequestClient.deliver m u sz st h res)).
  { intros m u sz st h Hd.
    destruct (deliver_shape m u sz st h res) as [D | (b & D)];
      rewrite D in Hd; cbn in Hd; [exact Hd|].
    destruct Hd as [Hd | []]. discriminate Hd. }
  unfold RequestClient.onResponse in Hin. rewrite Hz in Hin.
  cbn [JS.truthy_number Z.eqb negb andb] in Hin.
  destruct (isRedirect _ && _); [|exact (Hd _ _ _ _ _ Hin)].
  assert (Hmiss : forall l,
             In (Reject (RedirectLimitError
                    (RequestOptions.requestURL (RequestClient.options this))))
                ((if negb (JS.truthy_string
                             (or_default
                                (Headers.get
                                   (Headers.new
                                      (Some (IncomingMessage.headers res)))
                                   HEADER_MAP.LOCATION) ""))
                  then RequestClient.onRejected
                         (JS.Error ("Redirect location header missing at: "
                            ++ RequestOptions.requestURL
                                 (RequestClient.options this)))
                  else []) ++ l)%list ->
             In (Reject (RedirectLimitError
                    (RequestOptions.requestURL (RequestClient.options this))))
                l).
  { intros l H. destruct (negb _); [|exact H].
    cbn in H. destruct H as [H | [H | H]]; [discriminate H| |exact H].
    unfold RedirectLimitError in H. cbn in H. discriminate H. }
  destruct (URL_new _ _) as [target|].
  - destruct (RequestClient.createRequest _); cbn [snd app] in Hin;
      apply Hmiss in Hin; cbn in Hin.
    + destruct Hin as [Hin | []]. discriminate Hin.
    + destruct Hin as [Hin | Hin]; [discriminate Hin|].
      exact (Hd _ _ _ _ _ Hin).
  - cbn [snd app] in Hin. apply Hmiss in Hin. cbn in Hin.
    destruct Hin as [Hin | []]. discriminate Hin.
Qed.

(** C1. With [maxRedirectCount: 0] and a 302 from [/a] to [/b] the run
    does not fail: the handler of the first hop rejects nothing, it counts
    the hop and sends the request to [/b], and the promise is fulfilled
    with the 200 of the second hop. *)
Theorem max_redirect_zero_follows_redirect :
  exists this first second r,
    Request.run Example.URL_new Example.redirecting 3
      (Example.options None None None (Some 0)) =
      inr (this, [first; second], Fulfilled r) /\
    RequestClient.hop_effects first =
      FulfilWithSend ::
      RequestClient.deliver "GET" "http://example/a" 0 302
        [("location", ["/b"])]
        (IncomingMessage.mk (Some 302) [("Location", ["/b"])] []) /\
    requests_of [first; second] =
      [("/a", "GET", BodyNull); ("/b", "GET", BodyNull)] /\
    RequestClient.redirectCount this = 1 /\
    RequestOptions.maxRedirectCount (RequestClient.options this) = 0 /\
    ResponseImpl.statusCode r = 200.
Proof.
  do 4 eexists. split; [reflexivity|]. repeat split.
Qed.

(** C2. A terminal redirect error does not stop the handler. After the
    rejection for a missing Location header the hop is counted and a
    request for the URL resolved from ["null"] is sent; after the
    rejection for the hop bound (bound 1, second redirect) the hop is
    counted and the request for the next target is sent. *)
Theorem redirect_error_does_not_stop_next_hop :
  (exists this first second,
     Request.run Example.URL_new Example.redirecting_nowhere 3
       (Example.options None None None None) =
       inr (this, [first; second],
            Rejected (RedirectMissingLocationError "http://example/a")) /\
     RequestClient.hop_effects first =
       Destroy :: Reject (RedirectMissingLocationError "http://example/a") ::
       FulfilWithSend ::
       RequestClient.deliver "GET" "http://example/a" 0 302 []
         (IncomingMessage.mk (Some 302) [] []) /\
     requests_of [first; second] =
       [("/a", "GET", BodyNull); ("/null", "GET", BodyNull)] /\
     RequestClient.redirectCount this = 1) /\
  (exists this first second third,
     Request.run Example.URL_new Example.redirecting_twice 3
       (Example.options None None None (Some 1)) =
       inr (this, [first; second; third],
            Rejected (RedirectLimitError "http://example/a")) /\
     RequestClient.hop_effects second =
       Destroy :: Reject (RedirectLimitError "http://example/a") ::
       FulfilWithSend ::
       RequestClient.deliver "GET" "http://example/a" 0 302
         [("location", ["/c"])]
         (IncomingMessage.mk (Some 302) [("Location", ["/c"])] []) /\
     requests_of [first; second; third] =
       [("/a", "GET", BodyNull); ("/b", "GET", BodyNull);
        ("/c", "GET", BodyNull)] /\
     RequestClient.redirectCount this = 2).
Proof.
  split.
  - do 3 eexists. split; [reflexivity|]. repeat split.
  - do 4 eexists. split; [reflexivity|]. repeat split.
Qed.

(** ** Size Guard *)

Lemma byteLength_nonneg (chunk : list Z) : 0 <= byteLength chunk.
Proof. unfold byteLength. lia. Qed.

Lemma totalLength_nonneg (chunks : list (list Z)) : 0 <= totalLength chunks.
Proof.
  induction chunks as [|c r IH]; cbn [totalLength]; [lia|].
  pose proof (byteLength_nonneg c). lia.
Qed.

Lemma totalLength_app (a b : list (list Z)) :
  totalLength (a ++ b) = totalLength a + totalLength b.
Proof.
  induction a as [|c a IH]; cbn [totalLength app]; [reflexivity|].
  rewrite IH. lia.
Qed.

(** The guard from a running total within the ceiling, on chunks that lead
    beyond it: the chunks that fit are delivered, then the error, then
    nothing. *)
Lemma guard_exceeds (size : Z) (chunks : list (list Z)) :
  forall total,
    0 < size -> total <= size -> size < total + totalLength chunks ->
    exists delivered over rest,
      chunks = (delivered ++ over :: rest)%list /\
      SizeGuard.guard size total chunks =
        (map SizeGuard.Data delivered ++ [SizeGuard.ExceededSizeError])%list /\
      total + totalLength delivered <= size /\
      size < total + totalLength delivered + byteLength over.
Proof.
  induction chunks as [|chunk chunks IH]; intros total Hpos Hle Hgt.
  - cbn [totalLength] in Hgt. lia.
  - cbn [totalLength] in Hgt. cbn [SizeGuard.guard].
    destruct (size <? total + byteLength chunk) eqn:E.
    + apply Z.ltb_lt in E.
      assert (P : (0 <? size) = true) by (apply Z.ltb_lt; lia).
      rewrite P. cbn [andb].
      exists [], chunk, chunks. cbn [app map totalLength].
      repeat split; lia.
    + rewrite andb_false_r.
      apply Z.ltb_ge in E.
      destruct (IH (total + byteLength chunk) Hpos E)
        as (delivered & over & rest & -> & G & Hd & Ho); [lia|].
      exists (chunk :: delivered), over, rest.
      cbn [app map totalLength]. rewrite G.
      repeat split; lia.
Qed.

(** Without a positive ceiling, or within it, every chunk is delivered
    and the stream ends. *)
Lemma guard_within (size : Z) (chunks : list (list Z)) :
  forall total,
    size <= 0 \/ total + totalLength chunks <= size ->
    SizeGuard.guard size total chunks =
      (map SizeGuard.Data chunks ++ [SizeGuard.End])%list.
Proof.
  induction chunks as [|chunk chunks IH]; intros total H; [reflexivity|].
  cbn [SizeGuard.guard totalLength map app] in *.
  pose proof (totalLength_nonneg chunks).
  assert (E : (0 <? size) && (size <? total + byteLength chunk) = false).
  { apply andb_false_iff. destruct H as [H | H].
    - left. apply Z.ltb_ge. lia.
    - right. apply Z.ltb_ge. lia. }
  rewrite E, IH; [reflexivity|]. lia.
Qed.

(** C8. With a positive ceiling and a body longer than it, the consumer
    of the guarded stream gets the chunks that fit within the ceiling,
    then the ExceededSizeError, and nothing after it: the chunk that
    crosses the ceiling and all later ones are not delivered, and the
    stream does not end normally. *)
Theorem size_guard_terminates :
  forall (size : Z) (chunks : list (list Z)),
    0 < size ->
    size < totalLength chunks ->
    exists delivered over rest,
      chunks = (delivered ++ over :: rest)%list /\
      SizeGuard.run size chunks =
        (map SizeGuard.Data delivered ++ [SizeGuard.ExceededSizeError])%list /\
      totalLength delivered <= size /\
      size < totalLength delivered + byteLength over.
Proof.
  intros size chunks Hpos Hgt.
  destruct (guard_exceeds size chunks 0 Hpos) as
    (delivered & over & rest & Hc & G & Hd & Ho); [lia | lia |].
  exists delivered, over, rest. unfold SizeGuard.run.
  repeat split; auto; lia.
Qed.

Lemma size_guard_terminates_witness :
  exists delivered over rest,
    [[1; 2]; [3; 4]; [5]] = (delivered ++ over :: rest)%list /\
    SizeGuard.run 3 [[1; 2]; [3; 4]; [5]] =
      (map SizeGuard.Data delivered ++ [SizeGuard.ExceededSizeError])%list /\
    totalLength delivered <= 3 /\
    3 < totalLength delivered + byteLength over.
Proof.
  apply (size_guard_terminates 3 [[1; 2]; [3; 4]; [5]]).
  - lia.
  - vm_compute. reflexivity.
Defined.

(** The collector of the earlier [request] helper behaves alike for its
    fixed ceiling: once the collected body is longer than the ceiling the
    stream is destroyed and the promise rejected, and the chunks after
    the crossing one are never collected. *)
Lemma on_data_destroyed (ceiling : Z) (chunks : list (list Z)) :
  forall st,
    Collector.destroyed st = true ->
    fold_left (Collector.on_data ceiling) chunks st = st.
Proof.
  induction chunks as [|c r IH]; intros st H; [reflexivity|].
  cbn [fold_left]. unfold Collector.on_data at 2. rewrite H. now apply IH.
Qed.

Lemma byteLength_app (a b : list Z) :
  byteLength (a ++ b) = byteLength a + byteLength b.
Proof. unfold byteLength. rewrite length_app. lia. Qed.

Lemma byteLength_concat (chunks : list (list Z)) :
  byteLength (concat chunks) = totalLength chunks.
Proof.
  induction chunks as [|c r IH]; [reflexivity|].
  cbn [concat totalLength]. rewrite byteLength_app, IH. reflexivity.
Qed.

Lemma collector_exceeds (ceiling : Z) (chunks : list (list Z)) :
  forall st,
    Collector.destroyed st = false ->
    Collector.rejected st = None ->
    byteLength (Collector.body st) <= ceiling ->
    ceiling < byteLength (Collector.body st) + totalLength chunks ->
    exists taken rest,
      chunks = (taken ++ rest)%list /\
      let st' := fold_left (Collector.on_data ceiling) chunks st in
      Collector.destroyed st' = true /\
      Collector.rejected st' =
        Some (JS.Error "Exceed the acceptable buffer length") /\
      Collector.body st' = (Collector.body st ++ concat taken)%list /\
      ceiling < byteLength (Collector.body st').
Proof.
  induction chunks as [|c r IH]; intros st Hd Hr Hle Hgt.
  - cbn [totalLength] in Hgt. lia.
  - cbn [totalLength] in Hgt. cbn [fold_left].
    destruct (ceiling <? byteLength (Collector.body st ++ c)) eqn:E.
    + exists [c], r. split; [reflexivity|].
      assert (S : Collector.on_data ceiling st c =
                  Collector.mk (Collector.body st ++ c) true
                    (Some (JS.Error "Exceed the acceptable buffer length"))).
      { unfold Collector.on_data. now rewrite Hd, E, Hr. }
      cbv zeta. rewrite S, on_data_destroyed by reflexivity.
      cbn [Collector.destroyed Collector.rejected Collector.body concat].
      rewrite app_nil_r. apply Z.ltb_lt in E. repeat split; exact E.
    + assert (S : Collector.on_data ceiling st c =
                  Collector.mk (Collector.body st ++ c) false None).
      { unfold Collector.on_data. now rewrite Hd, E, Hr. }
      apply Z.ltb_ge in E. rewrite S.
      destruct (IH (Collector.mk (Collector.body st ++ c) false None))
        as (taken & rest & -> & H); try reflexivity.
      * exact E.
      * cbn [Collector.body]. rewrite byteLength_app. lia.
      * exists (c :: taken), rest. split; [reflexivity|].
        cbv zeta in *. cbn [Collector.body concat] in *.
        destruct H as (H1 & H2 & H3 & H4).
        rewrite app_assoc. repeat split; assumption.
Qed.

Lemma collect_exceeds (chunks : list (list Z)) :
  Collector.maxBuffer < totalLength chunks ->
  let st := Collector.collect Collector.maxBuffer chunks in
  Collector.destroyed st = true /\
  Collector.rejected st = Some (JS.Error "Exceed the acceptable buffer length").
Proof.
  intros H.
  destruct (collector_exceeds Collector.maxBuffer chunks Collector.init)
    as (taken & rest & _ & Hd & Hr & _); try reflexivity.
  - cbn. unfold Collector.maxBuffer. lia.
  - cbn [Collector.init Collector.body]. exact H.
  - split; [exact Hd | exact Hr].
Qed.

(* ===================================================================== *)
(** * Further properties                                                 *)
(* ===================================================================== *)

(** ** Header tokens and header values *)

(** The characters [isValidTokenChar] accepts are those its comment
    lists: [^_`a-z] (94-122), [A-Z] (65-90), [-] (45), [0-9] (48-57),
    [!] (33), [#$%&'] (35-39), [*+] (42-43), [.] (46), [|] (124) and
    [~] (126), and no other. *)
Theorem isValidTokenChar_table :
  forall ch : Z,
    isValidTokenChar ch = true <->
    94 <= ch <= 122 \/ 65 <= ch <= 90 \/ ch = 45 \/ 48 <= ch <= 57 \/
    ch = 33 \/ 35 <= ch <= 39 \/ 42 <= ch <= 43 \/ ch = 46 \/
    ch = 124 \/ ch = 126.
Proof.
  intros ch. unfold isValidTokenChar.
  repeat match goal with
         | |- context [if ?b then _ else _] => destruct b eqn:?
         end;
    repeat match goal with
           | H : (_ && _) = true |- _ => apply andb_true_iff in H; destruct H
           | H : (_ && _) = false |- _ => apply andb_false_iff in H
           | H : (_ || _) = true |- _ => apply orb_true_iff in H
           | H : (_ || _) = false |- _ => apply orb_false_iff in H; destruct H
           | H : (_ <=? _) = true |- _ => apply Z.leb_le in H
           | H : (_ <=? _) = false |- _ => apply Z.leb_gt in H
           | H : (_ =? _) = true |- _ => apply Z.eqb_eq in H
           | H : (_ =? _) = false |- _ => apply Z.eqb_neq in H
           end;
    split; intros; try discriminate; try reflexivity; lia.
Qed.

Lemma skipn_nth_cons (l : list Z) :
  forall i, (i < length l)%nat -> skipn i l = nth i l 0 :: skipn (S i) l.
Proof.
  induction l as [|x l IH]; intros i H; cbn [length] in H; [lia|].
  destruct i as [|i]; [reflexivity|].
  cbn [skipn nth]. apply IH. lia.
Qed.

Lemma token_loop_forallb (val : CodeUnits) :
  forall n i,
    (i + n = length val)%nat ->
    token_loop val n i = forallb isValidTokenChar (skipn i val).
Proof.
  induction n as [|n IH]; intros i H.
  - cbn [token_loop]. rewrite skipn_all2 by lia. reflexivity.
  - cbn [token_loop]. rewrite IH by lia.
    rewrite (skipn_nth_cons val i) by lia. unfold charCodeAt.
    cbn [forallb].
    destruct (isValidTokenChar (nth i val 0)); reflexivity.
Qed.

Lemma header_loop_existsb (val : CodeUnits) :
  forall n i,
    (i + n = length val)%nat ->
    header_loop val n i = existsb invalidHeaderChar (skipn i val).
Proof.
  induction n as [|n IH]; intros i H.
  - cbn [header_loop]. rewrite skipn_all2 by lia. reflexivity.
  - cbn [header_loop]. rewrite IH by lia.
    rewrite (skipn_nth_cons val i) by lia. unfold charCodeAt.
    cbn [existsb].
    destruct (invalidHeaderChar (nth i val 0)); reflexivity.
Qed.

(** The unrolled prefix of the two checks, as one case analysis. *)
Ltac unroll_string val :=
  destruct val as [|?c0 [|?c1 [|?c2 [|?c3 ?rest]]]].

(** [checkIsHttpToken] accepts exactly the non-empty strings all of whose
    characters are token characters: the unrolled tests of the first
    four characters and the loop from the fifth leave no index out. *)
Theorem checkIsHttpToken_all_chars :
  forall val : CodeUnits,
    checkIsHttpToken (AString val) =
    negb (Nat.eqb (length val) 0) && forallb isValidTokenChar val.
Proof.
  intros val. unfold checkIsHttpToken.
  unroll_string val; cbn [length Nat.eqb Nat.ltb Nat.leb negb andb forallb
                          charCodeAt nth]; unfold charCodeAt; cbn [nth].
  - reflexivity.
  - destruct (isValidTokenChar c0); reflexivity.
  - destruct (isValidTokenChar c0), (isValidTokenChar c1); reflexivity.
  - destruct (isValidTokenChar c0), (isValidTokenChar c1),
             (isValidTokenChar c2); reflexivity.
  - destruct (isValidTokenChar c0), (isValidTokenChar c1),
             (isValidTokenChar c2), (isValidTokenChar c3);
      cbn [negb andb]; try reflexivity.
    cbn [Nat.sub]. rewrite Nat.sub_0_r.
    rewrite token_loop_forallb by (cbn [length]; lia).
    reflexivity.
Qed.

(** [checkInvalidHeaderChar] is true exactly when some character of the
    string is a control character other than the tab, the DEL, or beyond
    255; the empty string has none. *)
Theorem checkInvalidHeaderChar_some_char :
  forall val : CodeUnits,
    checkInvalidHeaderChar val = existsb invalidHeaderChar val.
Proof.
  intros val. unfold checkInvalidHeaderChar.
  unroll_string val; cbn [length Nat.ltb Nat.leb existsb]; unfold charCodeAt;
    cbn [nth].
  - reflexivity.
  - destruct (invalidHeaderChar c0); reflexivity.
  - destruct (invalidHeaderChar c0), (invalidHeaderChar c1); reflexivity.
  - destruct (invalidHeaderChar c0), (invalidHeaderChar c1),
             (invalidHeaderChar c2); reflexivity.
  - destruct (invalidHeaderChar c0), (invalidHeaderChar c1),
             (invalidHeaderChar c2); cbn [orb]; try reflexivity.
    cbn [Nat.sub]. 
    rewrite header_loop_existsb by (cbn [length]; lia).
    reflexivity.
Qed.

Lemma token_char_is_header_char (c : Z) :
  isValidTokenChar c = true -> invalidHeaderChar c = false.
Proof.
  intros H. unfold isValidTokenChar in H. unfold invalidHeaderChar.
  repeat match type of H with
         | (if ?b then _ else _) = true => destruct b eqn:?
         end; try discriminate;
    repeat match goal with
           | H : (_ && _) = true |- _ => apply andb_true_iff in H; destruct H
           | H : (_ || _) = true |- _ => apply orb_true_iff in H; destruct H
           | H : (_ <=? _) = true |- _ => apply Z.leb_le in H
           | H : (_ =? _) = true |- _ => apply Z.eqb_eq in H
           end;
    repeat match goal with
           | |- (_ || _) = false => apply orb_false_iff; split
           | |- (_ && _) = false => apply andb_false_iff; left
           | |- (_ <=? _) = false => apply Z.leb_gt
           | |- (_ <? _) = false => apply Z.ltb_ge
           | |- (_ =? _) = false => apply Z.eqb_neq
           end; lia.
Qed.

Lemma all_token_no_invalid (val : CodeUnits) :
  forallb isValidTokenChar val = true -> existsb invalidHeaderChar val = false.
Proof.
  induction val as [|c val IH]; cbn [forallb existsb]; [reflexivity|].
  intros H. apply andb_true_iff in H. destruct H as [Hc Hr].
  now rewrite (token_char_is_header_char c Hc), IH.
Qed.

(** Every HTTP token is free of invalid header characters: what
    [checkIsHttpToken] accepts, [checkInvalidHeaderChar] does not flag. *)
Theorem token_has_no_invalid_header_char :
  forall val : CodeUnits,
    checkIsHttpToken (AString val) = true ->
    checkInvalidHeaderChar val = false.
Proof.
  intros val H.
  assert (T : forallb isValidTokenChar val = true).
  { revert H. unfold checkIsHttpToken.
    unroll_string val; cbn [length Nat.eqb Nat.ltb Nat.leb forallb];
      unfold charCodeAt; cbn [nth]; try discriminate;
      repeat match goal with
             | |- context [isValidTokenChar ?c] =>
                 destruct (isValidTokenChar c) eqn:?
             end; cbn [negb andb]; try discriminate; try reflexivity.
    cbn [Nat.sub]. rewrite Nat.sub_0_r.
    rewrite token_loop_forallb by (cbn [length]; lia).
    cbn [skipn]. intros ->. reflexivity. }
  apply all_token_no_invalid in T. revert T.
  unfold checkInvalidHeaderChar.
  unroll_string val; cbn [length Nat.ltb Nat.leb existsb]; unfold charCodeAt;
    cbn [nth]; try reflexivity;
    repeat match goal with
           | |- context [invalidHeaderChar ?c] =>
               destruct (invalidHeaderChar c) eqn:?
           end; cbn [orb]; try discriminate; try reflexivity.
  cbn [Nat.sub]. rewrite header_loop_existsb by (cbn [length]; lia).
  cbn [skipn existsb]. intros T.
  repeat match goal with
         | H : invalidHeaderChar _ = _ |- _ => rewrite H; clear H
         end.
  exact T.
Qed.

Lemma token_has_no_invalid_header_char_witness :
  checkInvalidHeaderChar [97; 99; 99; 101; 112; 116; 45; 120] = false.
Proof.
  apply (token_has_no_invalid_header_char [97; 99; 99; 101; 112; 116; 45; 120]).
  reflexivity.
Defined.

(** ** The send loop *)

Lemma send_eq (URL_new : URL.parser)
    (transport : ClientRequest.t -> Body -> Reply) (fuel : nat)
    (this0 : RequestClient.t) :
  RequestClient.send URL_new transport fuel this0 =
  match RequestClient.createRequest this0 with
  | inl e => inl e
  | inr clientRequest =>
      let timeout := RequestOptions.timeout (RequestClient.options this0) in
      let requestBody := fst (RequestClient.writeToRequest this0) in
      let this := snd (RequestClient.writeToRequest this0) in
      let hop := RequestClient.mkHop clientRequest requestBody in
      match transport clientRequest requestBody with
      | ReplyResponse res =>
          let this' := fst (RequestClient.onResponse URL_new this res) in
          let effects := snd (RequestClient.onResponse URL_new this res) in
          let completion := RequestClient.bodyEnded this res effects in
          let all := (effects ++ completion)%list in
          if RequestClient.sends_again effects then
            match fuel with
            | O => inr (this', [hop effects completion],
                        RequestClient.settle all Pending)
            | S fuel' =>
                match RequestClient.send URL_new transport fuel' this' with
                | inl _ => inr (this', [hop effects completion],
                                RequestClient.settle all Pending)
                | inr (this'', hops, next) =>
                    inr (this'', hop effects completion :: hops,
                         RequestClient.settle all next)
                end
            end
          else inr (this', [hop effects completion],
                    RequestClient.settle all Pending)
      | ReplyError e =>
          let effects := RequestClient.onRejected e in
          inr (this, [hop effects []], RequestClient.settle effects Pending)
      | ReplyAbort =>
          let effects :=
            RequestClient.onRejected
              (JS.Error "NodeJS request was aborted by the server") in
          inr (this, [hop effects []], RequestClient.settle effects Pending)
      | ReplyIdle =>
          let effects :=
            if JS.truthy_number timeout
            then RequestClient.onRejected
                   (JS.Error ("NodeJS request timeout in "
                              ++ JS.number_to_string timeout ++ " ms"))
            else [] in
          inr (this, [hop effects []], RequestClient.settle effects Pending)
      end
  end.
Proof.
  destruct fuel; cbn [RequestClient.send];
    destruct (RequestClient.createRequest this0); try reflexivity;
    unfold RequestClient.writeToRequest; cbn [fst snd];
    destruct (transport _ _); try reflexivity;
    destruct (RequestClient.onResponse URL_new _ _); reflexivity.
Qed.


(** The handler leaves the options as they are, or applies [rewrite] and
    replaces the parsed URL. *)
Lemma onResponse_options (URL_new : URL.parser) (this : RequestClient.t)
    (res : IncomingMessage.t) :
  let o := RequestClient.options this in
  let o' :=
    RequestClient.options (fst (RequestClient.onResponse URL_new this res)) in
  o' = o \/
  exists u,
    o' = RequestOptions.set_parsedURL
           (RequestClient.rewrite o
              (or_default (IncomingMessage.statusCode res) 200)
              (RequestOptions.method o)) u.
Proof.
  intros o o'.
  destruct (isRedirect (Some (or_default (IncomingMessage.statusCode res) 200))
            && RequestOptions.followRedirect o) eqn:E.
  - right. destruct (onResponse_followed URL_new this res E) as (_ & u & H).
    exists u. exact H.
  - left. unfold o'. rewrite (onResponse_terminal URL_new this res E).
    reflexivity.
Qed.

(** Every response the handler resolves with comes from [deliver]: it
    carries the request URL and the size of the options, the status code
    of the message (200 without one) and its headers. *)
Lemma fulfil_in_onResponse (URL_new : URL.parser) (this : RequestClient.t)
    (res : IncomingMessage.t) (r : ResponseImpl.t) :
  In (Fulfil r) (snd (RequestClient.onResponse URL_new this res)) ->
  ResponseImpl.requestURL r =
    RequestOptions.requestURL (RequestClient.options this) /\
  ResponseImpl.size r = RequestOptions.size (RequestClient.options this) /\
  ResponseImpl.statusCode r = or_default (IncomingMessage.statusCode res) 200 /\
  ResponseImpl.headers r = Headers.new (Some (IncomingMessage.headers res)).
Proof.
  intros Hin.
  assert (Hd : In (Fulfil r)
                 (RequestClient.deliver
                    (RequestOptions.method (RequestClient.options this))
                    (RequestOptions.requestURL (RequestClient.options this))
                    (RequestOptions.size (RequestClient.options this))
                    (or_default (IncomingMessage.statusCode res) 200)
                    (Headers.new (Some (IncomingMessage.headers res))) res)).
  { revert Hin. unfold RequestClient.onResponse.
    destruct (isRedirect _ && _); [|cbn [snd]; auto].
    assert (Hpre : forall l,
               In (Fulfil r)
                  ((if JS.truthy_number
                         (RequestOptions.maxRedirectCount
                            (RequestClient.options this)) &&
                       (RequestOptions.maxRedirectCount
                          (RequestClient.options this)
                        <=? RequestClient.redirectCount this)
                    then RequestClient.onRejected
                           (JS.Error ("Maximum redirect reached at: " ++
                              RequestOptions.requestURL
                                (RequestClient.options this)))
                    else []) ++
                   (if negb (JS.truthy_string
                               (or_default
                                  (Headers.get
                                     (Headers.new
                                        (Some (IncomingMessage.headers res)))
                                     HEADER_MAP.LOCATION) ""))
                    then RequestClient.onRejected
                           (JS.Error ("Redirect location header missing at: "
                              ++ RequestOptions.requestURL
                                   (RequestClient.options this)))
                    else []) ++ l)%list -> In (Fulfil r) l).
    { intros l H.
      apply in_app_or in H. destruct H as [H | H].
      - destruct (_ && _) in H; cbn in H; [|contradiction].
        destruct H as [H | [H | []]]; discriminate H.
      - apply in_app_or in H. destruct H as [H | H]; [|exact H].
        destruct (negb _) in H; cbn in H; [|contradiction].
        destruct H as [H | [H | []]]; discriminate H. }
    destruct (URL_new _ _) as [target|].
    - destruct (RequestClient.createRequest _); cbn [snd]; intros H;
        apply Hpre in H; cbn in H.
      + destruct H as [H | []]. discriminate H.
      + destruct H as [H | H]; [discriminate H | exact H].
    - cbn [snd]. intros H. apply Hpre in H. cbn in H.
      destruct H as [H | []]. discriminate H. }
  destruct (deliver_shape
              (RequestOptions.method (RequestClient.options this))
              (RequestOptions.requestURL (RequestClient.options this))
              (RequestOptions.size (RequestClient.options this))
              (or_default (IncomingMessage.statusCode res) 200)
              (Headers.new (Some (IncomingMessage.headers res))) res)
    as [D | (body & D)]; rewrite D in Hd; cbn in Hd; [contradiction|].
  destruct Hd as [Hd | []]. injection Hd as <-. repeat split.
Qed.

Lemma settle_fulfilled (effects : list Effect) (next : Settled)
    (r : ResponseImpl.t) :
  RequestClient.settle effects next = Fulfilled r ->
  In (Fulfil r) effects \/ next = Fulfilled r.
Proof.
  induction effects as [|e effects IH]; cbn [RequestClient.settle];
    [discriminate|].
  destruct e; intros H.
  - destruct (IH H) as [H' | H']; [left; right; exact H' | right; exact H'].
  - discriminate H.
  - injection H as ->. left. left. reflexivity.
  - right. exact H.
  - discriminate H.
Qed.

Lemma bodyEnded_no_fulfil (this : RequestClient.t) (res : IncomingMessage.t)
    (effects : list Effect) (r : ResponseImpl.t) :
  ~ In (Fulfil r) (RequestClient.bodyEnded this res effects).
Proof.
  unfold RequestClient.bodyEnded.
  destruct (RequestClient.threw effects); [intros []|].
  destruct (RequestClient.sniffs _ _ _); cbn; intros H;
    repeat (destruct H as [H | H]; [discriminate H|]); exact H.
Qed.

(** A property of the client that writing the body and every handler keep
    holds for the client a run ends with, and for the client behind the
    response the promise is fulfilled with. *)
Lemma send_invariant (URL_new : URL.parser)
    (transport : ClientRequest.t -> Body -> Reply)
    (I : RequestClient.t -> Prop) :
  (forall this res,
      I this -> I (fst (RequestClient.onResponse URL_new this res))) ->
  (forall this, I this -> I (snd (RequestClient.writeToRequest this))) ->
  forall fuel this this' hops st,
    I this ->
    RequestClient.send URL_new transport fuel this = inr (this', hops, st) ->
    I this' /\
    (forall r, st = Fulfilled r ->
       exists c res,
         I c /\
         In (Fulfil r) (snd (RequestClient.onResponse URL_new c res))).
Proof.
  intros Hstep Hwrite.
  assert (Hrej : forall e r,
             RequestClient.settle (RequestClient.onRejected e) Pending
             <> Fulfilled r) by (intros; discriminate).
  assert (Hset : forall this res next r,
             RequestClient.settle
               (snd (RequestClient.onResponse URL_new this res) ++
                RequestClient.bodyEnded this res
                  (snd (RequestClient.onResponse URL_new this res))) next
             = Fulfilled r ->
             In (Fulfil r) (snd (RequestClient.onResponse URL_new this res))
             \/ next = Fulfilled r).
  { intros this res next r H. apply settle_fulfilled in H.
    destruct H as [H | H]; [|right; exact H].
    apply in_app_or in H. destruct H as [H | H]; [left; exact H|].
    exfalso. exact (bodyEnded_no_fulfil _ _ _ _ H). }
  induction fuel as [|fuel IH]; intros this0 this' hops st Hi0 Hs;
    rewrite send_eq in Hs;
    destruct (RequestClient.createRequest this0) as [e|req];
    try discriminate; cbv zeta in Hs;
    pose proof (Hwrite this0 Hi0) as Hi;
    remember (snd (RequestClient.writeToRequest this0)) as this eqn:Ht;
    destruct (transport req _) as [res | e | |];
    try (injection Hs as <- <- <-; split; [exact Hi|];
         intros r Hr; exfalso;
         first [ exact (Hrej _ _ Hr)
               | destruct (JS.truthy_number _); discriminate Hr ]).
  - pose proof (Hstep this res Hi) as Hi'.
    assert (Hf : forall r,
               RequestClient.settle
                 (snd (RequestClient.onResponse URL_new this res) ++
                  RequestClient.bodyEnded this res
                    (snd (RequestClient.onResponse URL_new this res)))
                 Pending = Fulfilled r ->
               exists c res0, I c /\
                 In (Fulfil r)
                    (snd (RequestClient.onResponse URL_new c res0))).
    { intros r Hr. exists this, res. split; [exact Hi|].
      destruct (Hset this res Pending r Hr) as [H | H];
        [exact H | discriminate H]. }
    destruct (RequestClient.sends_again _);
      injection Hs as <- <- <-; (split; [exact Hi' | exact Hf]).
  - pose proof (Hstep this res Hi) as Hi'.
    assert (Hf : forall r,
               RequestClient.settle
                 (snd (RequestClient.onResponse URL_new this res) ++
                  RequestClient.bodyEnded this res
                    (snd (RequestClient.onResponse URL_new this res)))
                 Pending = Fulfilled r ->
               exists c res0, I c /\
                 In (Fulfil r)
                    (snd (RequestClient.onResponse URL_new c res0))).
    { intros r Hr. exists this, res. split; [exact Hi|].
      destruct (Hset this res Pending r Hr) as [H | H];
        [exact H | discriminate H]. }
    destruct (RequestClient.sends_again _).
    + destruct (RequestClient.send URL_new transport fuel _)
        as [e | [[this2 hops2] next]] eqn:Hnext.
      * injection Hs as <- <- <-. split; [exact Hi' | exact Hf].
      * injection Hs as <- <- <-.
        destruct (IH _ this2 hops2 next Hi' Hnext) as (I2 & R2).
        split; [exact I2|].
        intros r Hr. destruct (Hset this res next r Hr) as [H | H].
        -- exists this, res. split; [exact Hi | exact H].
        -- exact (R2 r H).
    + injection Hs as <- <- <-. split; [exact Hi' | exact Hf].
Qed.

Lemma rewrite_cases (o : RequestOptions.t) (s : Z) (m : string) :
  RequestClient.rewrite o s m = o \/
  RequestClient.rewrite o s m =
    RequestOptions.set_rewrite o METHOD_MAP.GET BodyNull
      (Headers.delete (RequestOptions.headers o) HEADER_MAP.CONTENT_LENGTH).
Proof.
  unfold RequestClient.rewrite. destruct (_ || _); [right | left]; reflexivity.
Qed.

(** The request that is sent carries the method of the options as Node
    sends it, and the headers of the options. *)
Lemma createRequest_sends (this : RequestClient.t) (req : ClientRequest.t) :
  RequestClient.createRequest this = inr req ->
  Node.request_method (RequestOptions.method (RequestClient.options this)) =
    inr (ClientRequest.method req) /\
  ClientRequest.headers req =
    Headers.raw (RequestOptions.headers (RequestClient.options this)).
Proof.
  unfold RequestClient.createRequest, Node.request.
  destruct (adapterForHttp _); [discriminate|].
  cbn [ClientRequest.method ClientRequest.headers].
  destruct (Node.request_method _); [discriminate|].
  destruct (Node.check_headers _); [discriminate|].
  intros H. injection H as <-. split; reflexivity.
Qed.

(** The response a run is fulfilled with names the URL the request was
    made for, not the URL of the last hop, and carries the size option of
    the request: no hop changes either. *)
Theorem fulfilled_response_keeps_request_url :
  forall (URL_new : URL.parser) (transport : ClientRequest.t -> Body -> Reply)
         (fuel : nat) (this this' : RequestClient.t)
         (hops : list RequestClient.Hop) (r : ResponseImpl.t),
    RequestClient.send URL_new transport fuel this =
      inr (this', hops, Fulfilled r) ->
    ResponseImpl.requestURL r =
      RequestOptions.requestURL (RequestClient.options this) /\
    ResponseImpl.size r = RequestOptions.size (RequestClient.options this).
Proof.
  intros URL_new transport fuel this this' hops r Hs.
  pose (I := fun c : RequestClient.t =>
               RequestOptions.requestURL (RequestClient.options c) =
                 RequestOptions.requestURL (RequestClient.options this) /\
               RequestOptions.size (RequestClient.options c) =
                 RequestOptions.size (RequestClient.options this)).
  assert (Hstep : forall c res,
             I c -> I (fst (RequestClient.onResponse URL_new c res))).
  { intros c res [Hu Hz]. unfold I.
    destruct (onResponse_options URL_new c res) as [-> | (u & ->)];
      [split; assumption|].
    destruct (rewrite_cases (RequestClient.options c)
                (or_default (IncomingMessage.statusCode res) 200)
                (RequestOptions.method (RequestClient.options c)))
      as [-> | ->]; cbn; split; assumption. }
  assert (Hwrite : forall c, I c -> I (snd (RequestClient.writeToRequest c)))
    by (intros c Hc; exact Hc).
  destruct (send_invariant URL_new transport I Hstep Hwrite fuel this this'
              hops (Fulfilled r)) as (_ & Hr); [split; reflexivity | exact Hs |].
  destruct (Hr r eq_refl) as (c & res & [Hu Hz] & Hin).
  destruct (fulfil_in_onResponse URL_new c res r Hin) as (Ru & Rz & _).
  split; congruence.
Qed.

Lemma fulfilled_response_keeps_request_url_witness :
  exists this' hops r,
    RequestClient.send Example.URL_new Example.redirecting 3
      (Example.client "GET" BodyNull) = inr (this', hops, Fulfilled r) /\
    URL.pathname (RequestOptions.parsedURL (RequestClient.options this')) =
      "/b" /\
    ResponseImpl.requestURL r =
      RequestOptions.requestURL
        (RequestClient.options (Example.client "GET" BodyNull)) /\
    ResponseImpl.size r =
      RequestOptions.size
        (RequestClient.options (Example.client "GET" BodyNull)).
Proof.
  do 3 eexists. split; [reflexivity|]. split; [reflexivity|].
  eapply (fulfilled_response_keeps_request_url Example.URL_new
            Example.redirecting 3 (Example.client "GET" BodyNull)).
  reflexivity.
Defined.

(** ** Resolver and first hop *)

Lemma update_searchParams_protocol (u : URL.t) (l : URLSearchParams.t) :
  URL.protocol (URL.update_searchParams u l) = URL.protocol u /\
  URL.hostname (URL.update_searchParams u l) = URL.hostname u /\
  URL.port (URL.update_searchParams u l) = URL.port u /\
  URL.pathname (URL.update_searchParams u l) = URL.pathname u /\
  URL.hash (URL.update_searchParams u l) = URL.hash u.
Proof. repeat split. Qed.

Lemma mergeQuery_frame (query : list (string * string)) :
  forall u,
    URL.protocol (mergeQuery u query) = URL.protocol u /\
    URL.hostname (mergeQuery u query) = URL.hostname u /\
    URL.port (mergeQuery u query) = URL.port u /\
    URL.pathname (mergeQuery u query) = URL.pathname u /\
    URL.hash (mergeQuery u query) = URL.hash u.
Proof.
  unfold mergeQuery.
  induction query as [|kv query IH]; intros u; [repeat split|].
  cbn [fold_left].
  destruct (IH (URL.searchParams_set u (JS.encodeURIComponent (fst kv))
                  (JS.encodeURIComponent (snd kv))))
    as (H1 & H2 & H3 & H4 & H5).
  rewrite H1, H2, H3, H4, H5. repeat split.
Qed.

(** What a successful resolution went through. *)
Lemma getRequestOptions_inr (URL_new : URL.parser)
    (co : RequestConstructorOptions.t) (o : RequestOptions.t) :
  getRequestOptions URL_new co = inr o ->
  exists u,
    URL_new (RequestConstructorOptions.requestURL co) None = Some u /\
    (URL.protocol u = "http:" \/ URL.protocol u = "https:") /\
    URL.hostname u <> "" /\
    (body_is_null (RequestOptions.body o) = true \/
     (RequestOptions.method o <> METHOD_MAP.GET /\
      RequestOptions.method o <> METHOD_MAP.HEAD)) /\
    o = RequestOptions.mk
          (RequestConstructorOptions.requestURL co)
          (RequestConstructorOptions.query co)
          (JS.toUpperCase
             (or_default (RequestConstructorOptions.method co)
                         (DefaultOptions.method DEFAULT_OPTIONS)))
          (or_default (RequestConstructorOptions.body co)
                      (DefaultOptions.body DEFAULT_OPTIONS))
          (or_default (RequestConstructorOptions.followRedirect co)
                      (DefaultOptions.followRedirect DEFAULT_OPTIONS))
          (or_default (RequestConstructorOptions.maxRedirectCount co)
                      (DefaultOptions.maxRedirectCount DEFAULT_OPTIONS))
          (or_default (RequestConstructorOptions.timeout co)
                      (DefaultOptions.timeout DEFAULT_OPTIONS))
          (or_default (RequestConstructorOptions.size co)
                      (DefaultOptions.size DEFAULT_OPTIONS))
          (match RequestConstructorOptions.query co with
           | Some q => mergeQuery u q
           | None => u
           end)
          (resolveHeaders (RequestConstructorOptions.headers co)
             (or_default (RequestConstructorOptions.body co)
                         (DefaultOptions.body DEFAULT_OPTIONS))).
Proof.
  unfold getRequestOptions.
  destruct (negb (body_is_null _) && _) eqn:B; [discriminate|].
  destruct (URL_new _ None) as [u|]; [|discriminate].
  destruct (negb (JS.truthy_string (URL.protocol u) &&
                  JS.truthy_string (URL.hostname u))) eqn:A; [discriminate|].
  destruct (negb (String.eqb (URL.protocol u) "http:" ||
                  String.eqb (URL.protocol u) "https:")) eqn:P; [discriminate|].
  intros H. injection H as <-.
  exists u. split; [reflexivity|].
  apply negb_false_iff in P. apply orb_true_iff in P.
  rewrite !String.eqb_eq in P. split; [exact P|].
  apply negb_false_iff in A. apply andb_true_iff in A. destruct A as [_ A].
  split; [intros E; rewrite E in A; discriminate A|].
  split; [|reflexivity].
  cbn [RequestOptions.body RequestOptions.method].
  apply andb_false_iff in B. destruct B as [B | B].
  - left. now apply negb_false_iff in B.
  - right. apply orb_false_iff in B. destruct B as [B1 B2].
    split; now apply String.eqb_neq.
Qed.

(** ** Terminal redirect errors *)

Lemma settle_app_rejected (a b : list Effect) (e : JS.Exn) :
  (forall next, RequestClient.settle a next = Rejected e) ->
  forall next, RequestClient.settle (a ++ b) next = Rejected e.
Proof.
  induction a as [|x a IH]; intros H next.
  - specialize (H Pending). discriminate H.
  - destruct x; cbn [app RequestClient.settle] in *.
    + apply IH. exact H.
    + exact (H next).
    + specialize (H next). discriminate H.
    + specialize (H Pending). discriminate H.
    + specialize (H next). discriminate H.
Qed.

(** Writing the body changes nothing of the client but the state of a
    stream body. *)
Lemma writeToRequest_frame (this : RequestClient.t) :
  let w := snd (RequestClient.writeToRequest this) in
  let o := RequestClient.options this in
  let o' := RequestClient.options w in
  fst (RequestClient.writeToRequest this) = RequestOptions.body o /\
  RequestClient.redirectCount w = RequestClient.redirectCount this /\
  RequestOptions.body o' = RequestClient.drained (RequestOptions.body o) /\
  RequestOptions.method o' = RequestOptions.method o /\
  RequestOptions.headers o' = RequestOptions.headers o /\
  RequestOptions.requestURL o' = RequestOptions.requestURL o /\
  RequestOptions.followRedirect o' = RequestOptions.followRedirect o /\
  RequestOptions.maxRedirectCount o' = RequestOptions.maxRedirectCount o /\
  RequestOptions.parsedURL o' = RequestOptions.parsedURL o /\
  RequestOptions.size o' = RequestOptions.size o /\
  RequestOptions.timeout o' = RequestOptions.timeout o.
Proof. repeat split. Qed.

Lemma send_rejects_as_handler (URL_new : URL.parser)
    (transport : ClientRequest.t -> Body -> Reply) (fuel : nat)
    (this : RequestClient.t) (req : ClientRequest.t)
    (res : IncomingMessage.t) (e : JS.Exn) :
  RequestClient.createRequest this = inr req ->
  transport req (RequestOptions.body (RequestClient.options this)) =
    ReplyResponse res ->
  (forall next,
      RequestClient.settle
        (snd (RequestClient.onResponse URL_new
                (snd (RequestClient.writeToRequest this)) res)) next
      = Rejected e) ->
  exists this' hops,
    RequestClient.send URL_new transport fuel this =
    inr (this', hops, Rejected e).
Proof.
  intros Hc Ht Hs. rewrite send_eq, Hc. cbv zeta.
  change (fst (RequestClient.writeToRequest this))
    with (RequestOptions.body (RequestClient.options this)).
  rewrite Ht.
  pose proof (settle_app_rejected _
                (RequestClient.bodyEnded
                   (snd (RequestClient.writeToRequest this)) res
                   (snd (RequestClient.onResponse URL_new
                           (snd (RequestClient.writeToRequest this)) res)))
                e Hs) as Ha.
  destruct (RequestClient.sends_again _).
  - destruct fuel as [|fuel].
    + do 2 eexists. rewrite Ha. reflexivity.
    + destruct (RequestClient.send URL_new transport fuel _)
        as [e' | [[this2 hops2] next]]; do 2 eexists; rewrite Ha; reflexivity.
  - do 2 eexists. rewrite Ha. reflexivity.
Qed.

Lemma onResponse_effects_followed (URL_new : URL.parser)
    (this : RequestClient.t) (res : IncomingMessage.t) :
  let o := RequestClient.options this in
  let headers := Headers.new (Some (IncomingMessage.headers res)) in
  isRedirect (Some (or_default (IncomingMessage.statusCode res) 200)) &&
  RequestOptions.followRedirect o = true ->
  exists rest,
    snd (RequestClient.onResponse URL_new this res) =
    ((if JS.truthy_number (RequestOptions.maxRedirectCount o) &&
         (RequestOptions.maxRedirectCount o <=? RequestClient.redirectCount this)
      then RequestClient.onRejected
             (RedirectLimitError (RequestOptions.requestURL o))
      else []) ++
     (if negb (JS.truthy_string
                 (or_default (Headers.get headers HEADER_MAP.LOCATION) ""))
      then RequestClient.onRejected
             (RedirectMissingLocationError (RequestOptions.requestURL o))
      else []) ++ rest)%list /\
    (forall next,
        RequestClient.settle rest next = next \/
        RequestClient.settle rest next = Pending).
Proof.
  intros o headers H. unfold RequestClient.onResponse.
  fold o. fold headers. rewrite H.
  destruct (URL_new _ _) as [target|].
  - destruct (RequestClient.createRequest _); cbn [snd];
      eexists; (split; [reflexivity|]); intros next; cbn; auto.
  - cbn [snd]. eexists. split; [reflexivity|]. intros next; cbn; auto.
Qed.

(** With a positive hop bound that the hop count has reached, a redirect
    to follow rejects the promise with the limit error, which names the
    URL of the original request; what the later hop does it cannot
    change. *)
Theorem hop_bound_reached_rejects :
  forall (URL_new : URL.parser) (transport : ClientRequest.t -> Body -> Reply)
         (fuel : nat) (this : RequestClient.t) (req : ClientRequest.t)
         (res : IncomingMessage.t),
    let o := RequestClient.options this in
    RequestClient.createRequest this = inr req ->
    transport req (RequestOptions.body o) = ReplyResponse res ->
    isRedirect (Some (or_default (IncomingMessage.statusCode res) 200)) = true ->
    RequestOptions.followRedirect o = true ->
    RequestOptions.maxRedirectCount o <> 0 ->
    RequestOptions.maxRedirectCount o <= RequestClient.redirectCount this ->
    exists this' hops,
      RequestClient.send URL_new transport fuel this =
      inr (this', hops,
           Rejected (JS.Error ("Maximum redirect reached at: "
                               ++ RequestOptions.requestURL o))).
Proof.
  intros URL_new transport fuel this req res o Hc Ht Hr Hf Hn Hle.
  apply (send_rejects_as_handler URL_new transport fuel this req res);
    [exact Hc | exact Ht |].
  intros next.
  destruct (onResponse_effects_followed URL_new
              (snd (RequestClient.writeToRequest this)) res)
    as (rest & -> & _).
  { change (RequestOptions.followRedirect
              (RequestClient.options
                 (snd (RequestClient.writeToRequest this))))
      with (RequestOptions.followRedirect o).
    now rewrite Hr, Hf. }
  unfold RequestClient.writeToRequest.
  cbn [snd RequestClient.options RequestClient.redirectCount
       RequestOptions.set_rewrite RequestOptions.maxRedirectCount
       RequestOptions.requestURL].
  fold o. unfold JS.truthy_number.
  rewrite (zeqb_false_of_neq _ _ Hn).
  assert (L : (RequestOptions.maxRedirectCount o
               <=? RequestClient.redirectCount this) = true)
    by (apply Z.leb_le; exact Hle).
  rewrite L. reflexivity.
Qed.

Lemma hop_bound_reached_rejects_witness :
  exists this' hops,
    RequestClient.send Example.URL_new Example.redirecting 3
      (RequestClient.mk
         (RequestClient.options (Example.client "GET" BodyNull)) 20) =
    inr (this', hops,
         Rejected (JS.Error ("Maximum redirect reached at: "
                             ++ "http://example/a"))).
Proof.
  eapply (hop_bound_reached_rejects Example.URL_new Example.redirecting 3
            (RequestClient.mk
               (RequestClient.options (Example.client "GET" BodyNull)) 20)).
  - reflexivity.
  - reflexivity.
  - reflexivity.
  - reflexivity.
  - cbn. lia.
  - cbn. lia.
Defined.

(** Below the hop bound, or with the bound switched off by 0, a redirect
    to follow whose Location header is absent or empty rejects the
    promise with the missing-location error, which names the URL of the
    original request. *)
Theorem missing_location_rejects :
  forall (URL_new : URL.parser) (transport : ClientRequest.t -> Body -> Reply)
         (fuel : nat) (this : RequestClient.t) (req : ClientRequest.t)
         (res : IncomingMessage.t),
    let o := RequestClient.options this in
    let headers := Headers.new (Some (IncomingMessage.headers res)) in
    RequestClient.createRequest this = inr req ->
    transport req (RequestOptions.body o) = ReplyResponse res ->
    isRedirect (Some (or_default (IncomingMessage.statusCode res) 200)) = true ->
    RequestOptions.followRedirect o = true ->
    (RequestOptions.maxRedirectCount o = 0 \/
     RequestClient.redirectCount this < RequestOptions.maxRedirectCount o) ->
    (Headers.get headers HEADER_MAP.LOCATION = None \/
     Headers.get headers HEADER_MAP.LOCATION = Some "") ->
    exists this' hops,
      RequestClient.send URL_new transport fuel this =
      inr (this', hops,
           Rejected (JS.Error ("Redirect location header missing at: "
                               ++ RequestOptions.requestURL o))).
Proof.
  intros URL_new transport fuel this req res o headers Hc Ht Hr Hf Hb Hl.
  apply (send_rejects_as_handler URL_new transport fuel this req res);
    [exact Hc | exact Ht |].
  intros next.
  destruct (onResponse_effects_followed URL_new
              (snd (RequestClient.writeToRequest this)) res)
    as (rest & -> & _).
  { change (RequestOptions.followRedirect
              (RequestClient.options
                 (snd (RequestClient.writeToRequest this))))
      with (RequestOptions.followRedirect o).
    now rewrite Hr, Hf. }
  unfold RequestClient.writeToRequest.
  cbn [snd RequestClient.options RequestClient.redirectCount
       RequestOptions.set_rewrite RequestOptions.maxRedirectCount
       RequestOptions.requestURL].
  fold o. fold headers.
  assert (B : JS.truthy_number (RequestOptions.maxRedirectCount o) &&
              (RequestOptions.maxRedirectCount o
               <=? RequestClient.redirectCount this) = false).
  { destruct Hb as [-> | Hb]; [reflexivity|].
    apply andb_false_iff. right. apply Z.leb_gt. exact Hb. }
  rewrite B. destruct Hl as [-> | ->]; reflexivity.
Qed.

Lemma missing_location_rejects_witness :
  exists this' hops,
    RequestClient.send Example.URL_new Example.redirecting_nowhere 3
      (Example.client "GET" BodyNull) =
    inr (this', hops,
         Rejected (JS.Error ("Redirect location header missing at: "
                             ++ "http://example/a"))).
Proof.
  eapply (missing_location_rejects Example.URL_new Example.redirecting_nowhere
            3 (Example.client "GET" BodyNull)).
  - reflexivity.
  - reflexivity.
  - reflexivity.
  - reflexivity.
  - right. cbn. lia.
  - left. reflexivity.
Defined.




(** ** Decoding rows *)

(** When decoding applies, the token [br] selects the Brotli
    decompressor and the tokens [gzip] and [x-gzip] select gunzip; the
    response is resolved at once, without waiting for a chunk. *)
Theorem gzip_and_brotli_select_their_decoder :
  forall (method requestURL : string) (size statusCode : Z)
         (headers : Headers.t) (res : IncomingMessage.t) (codings : string),
    Headers.get headers HEADER_MAP.CONTENT_ENCODING = Some codings ->
    method <> METHOD_MAP.HEAD -> statusCode <> 204 -> statusCode <> 304 ->
    (codings = "br" ->
     RequestClient.deliver method requestURL size statusCode headers res =
     [Fulfil (ResponseImpl.mk
                (Stream.mk (IncomingMessage.chunks res)
                           [PassThrough; BrotliDecompress])
                requestURL statusCode headers size)]) /\
    (codings = "gzip" \/ codings = "x-gzip" ->
     RequestClient.deliver method requestURL size statusCode headers res =
     [Fulfil (ResponseImpl.mk
                (Stream.mk (IncomingMessage.chunks res) [PassThrough; Gunzip])
                requestURL statusCode headers size)]).
Proof.
  intros method requestURL size statusCode headers res codings
         Hget Hm H204 H304.
  unfold RequestClient.deliver. rewrite Hget.
  rewrite (eqb_false_of_neq _ _ Hm), (zeqb_false_of_neq _ _ H204),
          (zeqb_false_of_neq _ _ H304).
  cbn [negb andb].
  split; [intros -> | intros [-> | ->]]; reflexivity.
Qed.

Lemma gzip_and_brotli_select_their_decoder_witness :
  ("gzip" = "br" ->
   RequestClient.deliver "GET" "http://example/a" 0 200
     [("content-encoding", ["gzip"])]
     (IncomingMessage.mk (Some 200) [] []) =
   [Fulfil (ResponseImpl.mk (Stream.mk [] [PassThrough; BrotliDecompress])
              "http://example/a" 200 [("content-encoding", ["gzip"])] 0)]) /\
  ("gzip" = "gzip" \/ "gzip" = "x-gzip" ->
   RequestClient.deliver "GET" "http://example/a" 0 200
     [("content-encoding", ["gzip"])]
     (IncomingMessage.mk (Some 200) [] []) =
   [Fulfil (ResponseImpl.mk (Stream.mk [] [PassThrough; Gunzip])
              "http://example/a" 200 [("content-encoding", ["gzip"])] 0)]).
Proof.
  apply (gzip_and_brotli_select_their_decoder "GET" "http://example/a" 0 200
           [("content-encoding", ["gzip"])]
           (IncomingMessage.mk (Some 200) [] []) "gzip").
  - reflexivity.
  - discriminate.
  - lia.
  - lia.
Defined.

(** A response to HEAD, and a response with status 204 or 304, is
    resolved at once with the body passed through, whatever its
    content-encoding says and even without any chunk. *)
Theorem bodyless_response_is_never_decoded :
  forall (method requestURL : string) (size statusCode : Z)
         (headers : Headers.t) (res : IncomingMessage.t),
    method = METHOD_MAP.HEAD \/ statusCode = 204 \/ statusCode = 304 ->
    RequestClient.deliver method requestURL size statusCode headers res =
    [Fulfil (ResponseImpl.mk
               (Stream.mk (IncomingMessage.chunks res) [PassThrough])
               requestURL statusCode headers size)].
Proof.
  intros method requestURL size statusCode headers res H.
  unfold RequestClient.deliver.
  destruct (Headers.get headers HEADER_MAP.CONTENT_ENCODING); [|reflexivity].
  assert (G : negb (String.eqb method METHOD_MAP.HEAD) &&
              negb (statusCode =? 204) && negb (statusCode =? 304) = false).
  { destruct H as [-> | [-> | ->]].
    - reflexivity.
    - rewrite andb_false_r. reflexivity.
    - apply andb_false_r. }
  rewrite G. reflexivity.
Qed.

Lemma bodyless_response_is_never_decoded_witness :
  RequestClient.deliver "HEAD" "http://example/a" 0 200
    [("content-encoding", ["deflate"])]
    (IncomingMessage.mk (Some 200) [] []) =
  [Fulfil (ResponseImpl.mk (Stream.mk [] [PassThrough])
             "http://example/a" 200 [("content-encoding", ["deflate"])] 0)].
Proof.
  apply (bodyless_response_is_never_decoded "HEAD" "http://example/a" 0 200
           [("content-encoding", ["deflate"])]
           (IncomingMessage.mk (Some 200) [] [])).
  left. reflexivity.
Defined.

(** A final response labelled deflate or x-deflate to which decoding
    applies and whose body delivers no chunk is never resolved: the
    handler resolves only on the first chunk it sniffs. When the body has
    ended, the two pipelines that read it call back with [undefined],
    so the request is destroyed and the promise of [send] is rejected
    with [undefined]. *)
Theorem deflate_without_body_rejects_undefined :
  forall (URL_new : URL.parser) (transport : ClientRequest.t -> Body -> Reply)
         (fuel : nat) (this : RequestClient.t) (req : ClientRequest.t)
         (res : IncomingMessage.t) (codings : string),
    let o := RequestClient.options this in
    let statusCode := or_default (IncomingMessage.statusCode res) 200 in
    RequestClient.createRequest this = inr req ->
    transport req (RequestOptions.body o) = ReplyResponse res ->
    isRedirect (Some statusCode) && RequestOptions.followRedirect o = false ->
    Headers.get (Headers.new (Some (IncomingMessage.headers res)))
                HEADER_MAP.CONTENT_ENCODING = Some codings ->
    deflate_token codings ->
    RequestOptions.method o <> METHOD_MAP.HEAD ->
    statusCode <> 204 -> statusCode <> 304 ->
    IncomingMessage.chunks res = [] ->
    RequestClient.send URL_new transport fuel this =
    inr (snd (RequestClient.writeToRequest this),
         [RequestClient.mkHop req (RequestOptions.body o) []
            [Destroy; Reject JS.Undefined; Destroy; Reject JS.Undefined]],
         Rejected JS.Undefined).
Proof.
  intros URL_new transport fuel this req res codings o statusCode
         Hc Ht Hterm Hget Hdef Hm H204 H304 Hchunks.
  rewrite send_eq, Hc. cbv zeta.
  change (fst (RequestClient.writeToRequest this))
    with (RequestOptions.body o).
  rewrite Ht.
  set (w := snd (RequestClient.writeToRequest this)).
  assert (Hterm' : isRedirect (Some statusCode) &&
                   RequestOptions.followRedirect (RequestClient.options w)
                   = false) by exact Hterm.
  rewrite (onResponse_terminal URL_new w res Hterm'). cbn [fst snd].
  change (RequestOptions.method (RequestClient.options w))
    with (RequestOptions.method o).
  change (RequestOptions.requestURL (RequestClient.options w))
    with (RequestOptions.requestURL o).
  change (RequestOptions.size (RequestClient.options w))
    with (RequestOptions.size o).
  fold statusCode.
  assert (Hbr : String.eqb codings COMPRESSION_TYPE.BR = false)
    by (destruct Hdef as [-> | ->]; reflexivity).
  assert (Hgz : String.eqb codings COMPRESSION_TYPE.GZIP ||
                String.eqb codings ("x-" ++ COMPRESSION_TYPE.GZIP) = false)
    by (destruct Hdef as [-> | ->]; reflexivity).
  apply deflate_token_eqb in Hdef.
  assert (D : RequestClient.deliver (RequestOptions.method o)
                (RequestOptions.requestURL o) (RequestOptions.size o)
                statusCode (Headers.new (Some (IncomingMessage.headers res)))
                res = []).
  { unfold RequestClient.deliver. rewrite Hget.
    rewrite (eqb_false_of_neq _ _ Hm), (zeqb_false_of_neq _ _ H204),
            (zeqb_false_of_neq _ _ H304).
    cbn [negb andb]. rewrite Hbr, Hgz, Hdef, Hchunks. reflexivity. }
  rewrite D.
  assert (S : RequestClient.sniffs (RequestOptions.method o) statusCode
                (Headers.new (Some (IncomingMessage.headers res))) = true).
  { unfold RequestClient.sniffs. rewrite Hget.
    rewrite (eqb_false_of_neq _ _ Hm), (zeqb_false_of_neq _ _ H204),
            (zeqb_false_of_neq _ _ H304), Hbr, Hgz, Hdef. reflexivity. }
  unfold RequestClient.bodyEnded.
  change (RequestOptions.method (RequestClient.options w))
    with (RequestOptions.method o).
  fold statusCode. rewrite S. reflexivity.
Qed.

Lemma deflate_without_body_rejects_undefined_witness :
  let this := Example.client "GET" BodyNull in
  let transport :=
    fun (_ : ClientRequest.t) (_ : Body) =>
      Example.response 200 [("content-encoding", ["deflate"])] [] in
  exists req,
    RequestClient.createRequest this = inr req /\
    RequestClient.send Example.URL_new transport 3 this =
    inr (snd (RequestClient.writeToRequest this),
         [RequestClient.mkHop req
            (RequestOptions.body (RequestClient.options this)) []
            [Destroy; Reject JS.Undefined; Destroy; Reject JS.Undefined]],
         Rejected JS.Undefined).
Proof.
  intros this transport. eexists. split; [reflexivity|].
  apply (deflate_without_body_rejects_undefined Example.URL_new transport 3
           this _ (IncomingMessage.mk (Some 200)
                     [("content-encoding", ["deflate"])] []) "deflate").
  - reflexivity.
  - reflexivity.
  - reflexivity.
  - reflexivity.
  - left; reflexivity.
  - discriminate.
  - cbn; lia.
  - cbn; lia.
  - reflexivity.
Defined.

(** ** Resolved headers *)

Lemma lookup_update_same (h : Headers.t) (k : string)
    (f : list string -> list string) :
  Headers.lookup (Headers.update h k f) k =
  Some (f (or_default (Headers.lookup h k) [])).
Proof.
  induction h as [|[k' vs] h IH]; cbn [Headers.update Headers.lookup].
  - rewrite String.eqb_refl. reflexivity.
  - destruct (String.eqb k' k) eqn:E; cbn [Headers.lookup]; rewrite E;
      [reflexivity | exact IH].
Qed.

Lemma lookup_update_other (h : Headers.t) (k k' : string)
    (f : list string -> list string) :
  k' <> k ->
  Headers.lookup (Headers.update h k f) k' = Headers.lookup h k'.
Proof.
  intros N. induction h as [|[k0 vs] h IH]; cbn [Headers.update Headers.lookup].
  - apply String.eqb_neq in N. rewrite String.eqb_sym in N. now rewrite N.
  - destruct (String.eqb k0 k) eqn:E; cbn [Headers.lookup].
    + apply String.eqb_eq in E. subst k0.
      apply String.eqb_neq in N. rewrite String.eqb_sym in N. now rewrite N.
    + destruct (String.eqb k0 k'); [reflexivity | exact IH].
Qed.

Lemma lookup_delete_other (h : Headers.t) (name k' : string) :
  k' <> Headers.key name ->
  Headers.lookup (Headers.delete h name) k' = Headers.lookup h k'.
Proof.
  intros N. induction h as [|[k0 vs] h IH]; [reflexivity|].
  cbn [Headers.delete filter fst Headers.lookup].
  destruct (String.eqb k0 (Headers.key name)) eqn:E; cbn [negb].
  - apply String.eqb_eq in E. subst k0.
    apply String.eqb_neq in N. rewrite String.eqb_sym in N. rewrite N.
    exact IH.
  - cbn [Headers.lookup]. destruct (String.eqb k0 k'); [reflexivity | exact IH].
Qed.

(** The headers of resolved options: a content-length the caller gave is
    gone; accept-encoding is the list of supported compressions whatever
    the caller gave; accept and connection are the caller's when given
    and [*/*] and [close] otherwise; a content-type is added only for a
    non-empty string body without a content-type of the caller, and a
    Buffer, a stream or an empty string gets none. *)
Theorem resolved_headers :
  forall (URL_new : URL.parser) (co : RequestConstructorOptions.t)
         (o : RequestOptions.t),
    getRequestOptions URL_new co = inr o ->
    let given := Headers.new (RequestConstructorOptions.headers co) in
    let h := RequestOptions.headers o in
    Headers.has h "content-length" = false /\
    Headers.get h "accept-encoding" = Some "gzip,deflate,br" /\
    Headers.lookup h "accept" =
      (if Headers.has given "accept" then Headers.lookup given "accept"
       else Some ["*/*"]) /\
    Headers.lookup h "connection" =
      (if Headers.has given "connection"
       then Headers.lookup given "connection"
       else Some ["close"]) /\
    Headers.lookup h "content-type" =
      (if Headers.has given "content-type"
       then Headers.lookup given "content-type"
       else match RequestOptions.body o with
            | BodyString (String _ _) => Some ["text/plain;charset=UTF-8"]
            | _ => None
            end).
Proof.
  intros URL_new co o G given h.
  destruct (getRequestOptions_inr URL_new co o G) as (u & _ & _ & _ & _ & Ho).
  assert (Hh : h = resolveHeaders (RequestConstructorOptions.headers co)
                     (RequestOptions.body o))
    by (unfold h; rewrite Ho; reflexivity).
  clearbody h. subst h. clear Ho G u.
  unfold resolveHeaders. fold given.
  remember (Headers.delete given HEADER_MAP.CONTENT_LENGTH) as h1 eqn:Hh1.
  remember (Headers.set h1 HEADER_MAP.ACCEPT_ENCODING
              (join "," SUPPORTED_COMPRESSIONS)) as h2 eqn:Hh2.
  remember (if negb (Headers.has h2 HEADER_MAP.ACCEPT)
            then Headers.set h2 HEADER_MAP.ACCEPT "*/*" else h2)
    as h3 eqn:Hh3.
  remember (if negb (Headers.has h3 HEADER_MAP.CONNECTION)
            then Headers.set h3 HEADER_MAP.CONNECTION "close" else h3)
    as h4 eqn:Hh4.
  (* lookups in the intermediate header sets *)
  assert (L2 : forall k, k <> "accept-encoding" -> k <> "content-length" ->
                 Headers.lookup h2 k = Headers.lookup given k).
  { intros k N1 N2. rewrite Hh2. unfold Headers.set.
    rewrite lookup_update_other by exact N1.
    rewrite Hh1. now rewrite lookup_delete_other by exact N2. }
  assert (L3 : forall k, k <> "accept-encoding" -> k <> "content-length" ->
                 k <> "accept" ->
                 Headers.lookup h3 k = Headers.lookup given k).
  { intros k N1 N2 N3. rewrite Hh3.
    destruct (negb (Headers.has h2 HEADER_MAP.ACCEPT)); [|now apply L2].
    unfold Headers.set. rewrite lookup_update_other by exact N3.
    now apply L2. }
  assert (L4 : forall k, k <> "accept-encoding" -> k <> "content-length" ->
                 k <> "accept" -> k <> "connection" ->
                 Headers.lookup h4 k = Headers.lookup given k).
  { intros k N1 N2 N3 N4. rewrite Hh4.
    destruct (negb (Headers.has h3 HEADER_MAP.CONNECTION)); [|now apply L3].
    unfold Headers.set. rewrite lookup_update_other by exact N4.
    now apply L3. }
  assert (A3 : Headers.lookup h3 "accept" =
               if Headers.has given "accept"
               then Headers.lookup given "accept" else Some ["*/*"]).
  { rewrite Hh3. unfold Headers.has.
    change (Headers.key HEADER_MAP.ACCEPT) with "accept".
    change (Headers.key "accept") with "accept".
    rewrite (L2 "accept") by discriminate.
    destruct (Headers.lookup given "accept") as [vs|] eqn:E; cbn [negb].
    - rewrite (L2 "accept") by discriminate. exact E.
    - unfold Headers.set. apply lookup_update_same. }
  assert (A4 : Headers.lookup h4 "accept" = Headers.lookup h3 "accept").
  { rewrite Hh4.
    destruct (negb (Headers.has h3 HEADER_MAP.CONNECTION)); [|reflexivity].
    unfold Headers.set. apply lookup_update_other. discriminate. }
  assert (C4 : Headers.lookup h4 "connection" =
               if Headers.has given "connection"
               then Headers.lookup given "connection" else Some ["close"]).
  { rewrite Hh4. unfold Headers.has.
    change (Headers.key HEADER_MAP.CONNECTION) with "connection".
    change (Headers.key "connection") with "connection".
    rewrite (L3 "connection") by discriminate.
    destruct (Headers.lookup given "connection") as [vs|] eqn:E; cbn [negb].
    - rewrite (L3 "connection") by discriminate. exact E.
    - unfold Headers.set. apply lookup_update_same. }
  assert (E4 : Headers.lookup h4 "accept-encoding" = Some ["gzip,deflate,br"]).
  { assert (E3 : Headers.lookup h3 "accept-encoding"
                 = Some ["gzip,deflate,br"]).
    { assert (E2 : Headers.lookup h2 "accept-encoding"
                   = Some ["gzip,deflate,br"])
        by (rewrite Hh2; unfold Headers.set; apply lookup_update_same).
      rewrite Hh3.
      destruct (negb (Headers.has h2 HEADER_MAP.ACCEPT)); [|exact E2].
      unfold Headers.set. rewrite lookup_update_other by discriminate.
      exact E2. }
    rewrite Hh4.
    destruct (negb (Headers.has h3 HEADER_MAP.CONNECTION)); [|exact E3].
    unfold Headers.set. rewrite lookup_update_other by discriminate.
    exact E3. }
  assert (N4 : Headers.lookup h4 "content-length" = None).
  { assert (N3 : Headers.lookup h3 "content-length" = None).
    { assert (N2 : Headers.lookup h2 "content-length" = None).
      { rewrite Hh2. unfold Headers.set.
        rewrite lookup_update_other by discriminate.
        rewrite Hh1. apply (lookup_delete given HEADER_MAP.CONTENT_LENGTH). }
      rewrite Hh3.
      destruct (negb (Headers.has h2 HEADER_MAP.ACCEPT)); [|exact N2].
      unfold Headers.set. rewrite lookup_update_other by discriminate.
      exact N2. }
    rewrite Hh4.
    destruct (negb (Headers.has h3 HEADER_MAP.CONNECTION)); [|exact N3].
    unfold Headers.set. rewrite lookup_update_other by discriminate.
    exact N3. }
  assert (T4 : Headers.lookup h4 "content-type"
               = Headers.lookup given "content-type")
    by (apply L4; discriminate).
  (* the last step, on the content-type *)
  assert (Last : forall k, k <> "content-type" ->
            Headers.lookup
              (if body_truthy (RequestOptions.body o) &&
                  negb (Headers.has h4 HEADER_MAP.CONTENT_TYPE)
               then match extractContentType (RequestOptions.body o) with
                    | Some contentType =>
                        Headers.append h4 HEADER_MAP.CONTENT_TYPE contentType
                    | None => h4
                    end
               else h4) k = Headers.lookup h4 k).
  { intros k N. destruct (_ && _); [|reflexivity].
    destruct (extractContentType _); [|reflexivity].
    unfold Headers.append. now apply lookup_update_other. }
  split; [unfold Headers.has;
          change (Headers.key "content-length") with "content-length";
          rewrite Last by discriminate; now rewrite N4|].
  split; [unfold Headers.get;
          change (Headers.key "accept-encoding") with "accept-encoding";
          rewrite Last by discriminate; now rewrite E4|].
  split; [rewrite Last by discriminate; rewrite A4; exact A3|].
  split; [rewrite Last by discriminate; exact C4|].
  unfold Headers.has at 1.
  change (Headers.key HEADER_MAP.CONTENT_TYPE) with "content-type".
  unfold Headers.has. change (Headers.key "content-type") with "content-type".
  rewrite T4.
  destruct (Headers.lookup given "content-type") as [vs|] eqn:E; cbn [negb].
  - rewrite andb_false_r. exact T4.
  - rewrite andb_true_r.
    destruct (RequestOptions.body o) as [|[|c s]| |];
      cbn [body_truthy JS.truthy_string extractContentType];
      try exact T4.
    unfold Headers.append.
    change (Headers.key HEADER_MAP.CONTENT_TYPE) with "content-type".
    rewrite lookup_update_same, T4. reflexivity.
Qed.

Lemma resolved_headers_witness :
  let co :=
    RequestConstructorOptions.mk "http://example/a" (Some "post")
      (Some (BodyString "x"))
      (Some [("Content-Length", ["1"]); ("Accept", ["text/html"]);
             ("Accept-Encoding", ["identity"])])
      None None None None None in
  exists o,
    getRequestOptions Example.URL_new co = inr o /\
    RequestOptions.headers o =
      [("accept", ["text/html"]); ("accept-encoding", ["gzip,deflate,br"]);
       ("connection", ["close"]);
       ("content-type", ["text/plain;charset=UTF-8"])] /\
    Headers.has (RequestOptions.headers o) "content-length" = false /\
    Headers.get (RequestOptions.headers o) "accept-encoding" =
      Some "gzip,deflate,br".
Proof.
  intros co. eexists. split; [reflexivity|]. split; [reflexivity|].
  pose proof (resolved_headers Example.URL_new co _ eq_refl) as H.
  cbv zeta in H. destruct H as (H1 & H2 & _). split; [exact H1 | exact H2].
Defined.

(** ** Query merge, one pair *)

Lemma occurs_app (c : ascii) (a b : string) :
  occurs c (a ++ b) = occurs c a || occurs c b.
Proof.
  induction a as [|x a IH]; cbn [append occurs]; [reflexivity|].
  rewrite IH. apply orb_assoc.
Qed.

Lemma form_output_has_no_separator (c : ascii) :
  let out := match URLSearchParams.form_keep c with
             | Some out => out
             | None => JS.percent_byte c
             end in
  occurs "&" out = false /\ occurs "=" out = false.
Proof.
  destruct c as [b0 b1 b2 b3 b4 b5 b6 b7].
  destruct b0, b1, b2, b3, b4, b5, b6, b7; split; reflexivity.
Qed.

Lemma serialize_string_has_no_separator (s : string) :
  occurs "&" (URLSearchParams.serialize_string s) = false /\
  occurs "=" (URLSearchParams.serialize_string s) = false.
Proof.
  unfold URLSearchParams.serialize_string.
  induction s as [|c s [IH1 IH2]]; [split; reflexivity|].
  cbn [JS.encode_with].
  destruct (form_output_has_no_separator c) as [H1 H2]. cbv zeta in H1, H2.
  destruct (URLSearchParams.form_keep c);
    rewrite !occurs_app, H1, H2, IH1, IH2; split; reflexivity.
Qed.

Lemma split_on_absent (sep : ascii) (s : string) :
  occurs sep s = false -> URLSearchParams.split_on sep s = [s].
Proof.
  induction s as [|c s IH]; [reflexivity|].
  cbn [occurs URLSearchParams.split_on]. intros H.
  apply orb_false_iff in H. destruct H as [H1 H2].
  rewrite H1, (IH H2). reflexivity.
Qed.

Lemma split_pair_at_first (a b : string) :
  occurs "=" a = false ->
  URLSearchParams.split_pair (a ++ "=" ++ b) = (a, b).
Proof.
  induction a as [|c a IH]; [reflexivity|].
  cbn [occurs append URLSearchParams.split_pair]. intros H.
  apply orb_false_iff in H. destruct H as [H1 H2].
  rewrite H1. cbn [append] in IH. rewrite (IH H2). reflexivity.
Qed.

Lemma parse_serialize_pair (a b : string) :
  URLSearchParams.parse (URLSearchParams.serialize [(a, b)]) = [(a, b)].
Proof.
  cbn [URLSearchParams.serialize]. unfold URLSearchParams.parse.
  destruct (serialize_string_has_no_separator a) as [A1 A2].
  destruct (serialize_string_has_no_separator b) as [B1 _].
  rewrite split_on_absent
    by (rewrite !occurs_app, A1, B1; reflexivity).
  assert (T : JS.truthy_string
                (URLSearchParams.serialize_string a ++ "=" ++
                 URLSearchParams.serialize_string b) = true)
    by (destruct (URLSearchParams.serialize_string a); reflexivity).
  cbn [filter]. rewrite T. cbn [map].
  rewrite (split_pair_at_first _ _ A2).
  now rewrite !decode_serialize_string.
Qed.

(** A query of one pair merged into a URL that has no query: the query
    string is the form encoding of the two [encodeURIComponent] results,
    and whoever parses it reads back those escaped strings. The pair is
    read back as given exactly when [encodeURIComponent] leaves both
    strings alone. *)
Theorem merged_pair_is_read_back_escaped :
  forall (u : URL.t) (k v : string),
    URL.query u = None ->
    let merged := mergeQuery u [(k, v)] in
    URL.search merged =
      "?" ++ URLSearchParams.serialize_string (JS.encodeURIComponent k)
          ++ "=" ++ URLSearchParams.serialize_string (JS.encodeURIComponent v)
    /\
    URL.searchParams merged =
      [(JS.encodeURIComponent k, JS.encodeURIComponent v)] /\
    (URL.searchParams merged = [(k, v)] <->
     JS.encodeURIComponent k = k /\ JS.encodeURIComponent v = v).
Proof.
  intros u k v Hq merged.
  assert (M : merged =
              URL.update_searchParams u
                [(JS.encodeURIComponent k, JS.encodeURIComponent v)]).
  { unfold merged, mergeQuery. cbn [fold_left fst snd].
    unfold URL.searchParams_set, URL.searchParams. rewrite Hq. reflexivity. }
  assert (T : JS.truthy_string
                (URLSearchParams.serialize
                   [(JS.encodeURIComponent k, JS.encodeURIComponent v)])
              = true).
  { cbn [URLSearchParams.serialize].
    destruct (URLSearchParams.serialize_string (JS.encodeURIComponent k));
      reflexivity. }
  assert (Q : URL.query merged =
              Some (URLSearchParams.serialize
                      [(JS.encodeURIComponent k, JS.encodeURIComponent v)])).
  { rewrite M. unfold URL.update_searchParams. cbn [URL.query].
    now rewrite T. }
  assert (P : URL.searchParams merged =
              [(JS.encodeURIComponent k, JS.encodeURIComponent v)]).
  { unfold URL.searchParams. rewrite Q. apply parse_serialize_pair. }
  split; [|split].
  - unfold URL.search. rewrite Q, T. reflexivity.
  - exact P.
  - rewrite P. split.
    + intros H. injection H as H1 H2. split; assumption.
    + intros [H1 H2]. now rewrite H1, H2.
Qed.

Lemma merged_pair_is_read_back_escaped_witness :
  let merged := mergeQuery (Example.url "/a" None) [("page", "a/b")] in
  URL.search merged =
    "?" ++ URLSearchParams.serialize_string (JS.encodeURIComponent "page")
        ++ "=" ++ URLSearchParams.serialize_string (JS.encodeURIComponent "a/b")
  /\
  URL.searchParams merged =
    [(JS.encodeURIComponent "page", JS.encodeURIComponent "a/b")] /\
  (URL.searchParams merged = [("page", "a/b")] <->
   JS.encodeURIComponent "page" = "page" /\ JS.encodeURIComponent "a/b" = "a/b").
Proof.
  apply (merged_pair_is_read_back_escaped (Example.url "/a" None) "page" "a/b").
  reflexivity.
Defined.

(** ** The collector of the earlier [request] helper *)

Lemma collector_within (ceiling : Z) (chunks : list (list Z)) :
  forall st,
    Collector.destroyed st = false ->
    byteLength (Collector.body st) + totalLength chunks <= ceiling ->
    fold_left (Collector.on_data ceiling) chunks st =
    Collector.mk (Collector.body st ++ concat chunks) false
                 (Collector.rejected st).
Proof.
  induction chunks as [|c r IH]; intros st Hd Hle.
  - cbn [fold_left concat]. rewrite app_nil_r. destruct st; cbn in *.
    now rewrite Hd.
  - cbn [fold_left totalLength concat] in *.
    pose proof (totalLength_nonneg r).
    assert (E : (ceiling <? byteLength (Collector.body st ++ c)) = false)
      by (apply Z.ltb_ge; rewrite byteLength_app; lia).
    assert (S : Collector.on_data ceiling st c =
                Collector.mk (Collector.body st ++ c) false
                             (Collector.rejected st))
      by (unfold Collector.on_data; now rewrite Hd, E).
    rewrite S, IH.
    + cbn [Collector.body Collector.rejected]. now rewrite app_assoc.
    + reflexivity.
    + cbn [Collector.body]. rewrite byteLength_app. lia.
Qed.

(** What the body collector of the earlier [request] helper ends with,
    for any non-negative ceiling (50 MB in the source): a body within the
    ceiling is collected whole, the stream is left alone and nothing is
    rejected; a longer body destroys the stream and rejects with the
    buffer-length error, the collected bytes being those of the chunks up
    to and including the one that crossed the ceiling. *)
Theorem collector_verdict :
  forall (ceiling : Z) (chunks : list (list Z)),
    0 <= ceiling ->
    let st := Collector.collect ceiling chunks in
    (totalLength chunks <= ceiling ->
     st = Collector.mk (concat chunks) false None) /\
    (ceiling < totalLength chunks ->
     Collector.destroyed st = true /\
     Collector.rejected st =
       Some (JS.Error "Exceed the acceptable buffer length") /\
     exists taken rest,
       chunks = (taken ++ rest)%list /\
       Collector.body st = concat taken /\
       ceiling < totalLength taken).
Proof.
  intros ceiling chunks H0 st. unfold st, Collector.collect. split.
  - intros Hle.
    rewrite collector_within by (cbn; try reflexivity; lia). reflexivity.
  - intros Hgt.
    destruct (collector_exceeds ceiling chunks Collector.init)
      as (taken & rest & Hc & Hd & Hr & Hb & Hlen);
      try reflexivity; try (cbn; lia).
    cbv zeta in *. cbn [Collector.init Collector.body app] in Hb.
    split; [exact Hd|]. split; [exact Hr|].
    exists taken, rest. split; [exact Hc|]. split; [exact Hb|].
    rewrite Hb, byteLength_concat in Hlen. exact Hlen.
Qed.

Lemma collector_verdict_witness :
  let st := Collector.collect 3 [[1; 2]; [3; 4]; [5]] in
  (totalLength [[1; 2]; [3; 4]; [5]] <= 3 ->
   st = Collector.mk (concat [[1; 2]; [3; 4]; [5]]) false None) /\
  (3 < totalLength [[1; 2]; [3; 4]; [5]] ->
   Collector.destroyed st = true /\
   Collector.rejected st =
     Some (JS.Error "Exceed the acceptable buffer length") /\
   exists taken rest,
     [[1; 2]; [3; 4]; [5]] = (taken ++ rest)%list /\
     Collector.body st = concat taken /\
     3 < totalLength taken).
Proof.
  apply (collector_verdict 3 [[1; 2]; [3; 4]; [5]]). lia.
Defined.

(** ** The earlier client *)

Lemma legacy_lookup_assign_same (d : Legacy.Dict) (k v : string) :
  Legacy.lookup (Legacy.assign d k v) k = Some v.
Proof.
  induction d as [|[k' v'] d IH]; cbn [Legacy.assign Legacy.lookup].
  - now rewrite String.eqb_refl.
  - destruct (String.eqb k' k) eqn:E; cbn [Legacy.lookup]; rewrite E;
      [reflexivity | exact IH].
Qed.

Lemma legacy_lookup_assign_other (d : Legacy.Dict) (k k' v : string) :
  k' <> k ->
  Legacy.lookup (Legacy.assign d k v) k' = Legacy.lookup d k'.
Proof.
  intros N. apply String.eqb_neq in N. rewrite String.eqb_sym in N.
  induction d as [|[k0 v0] d IH]; cbn [Legacy.assign Legacy.lookup].
  - now rewrite N.
  - destruct (String.eqb k0 k) eqn:E; cbn [Legacy.lookup].
    + apply String.eqb_eq in E. subst k0. now rewrite N.
    + destruct (String.eqb k0 k'); [reflexivity | exact IH].
Qed.

Lemma legacy_prepare_has (this : Legacy.Request.t) :
  JS.truthy_string (Legacy.Request.body this) = true ->
  let h := Legacy.Request.reqHeaders (Legacy.Request.prepare this) in
  Legacy.hasOwnProperty h "content-type" = true /\
  Legacy.hasOwnProperty h "content-length" = true.
Proof.
  intros Hb. unfold Legacy.Request.prepare. rewrite Hb.
  cbn [Legacy.Request.reqHeaders Legacy.Request.set_reqHeaders].
  set (h0 := Legacy.Request.reqHeaders this).
  assert (H1 : Legacy.hasOwnProperty
                 (if negb (Legacy.hasOwnProperty h0 "content-type")
                  then Legacy.assign h0 "content-type" "application/json"
                  else h0) "content-type" = true).
  { destruct (Legacy.hasOwnProperty h0 "content-type") eqn:E; cbn [negb];
      [exact E|].
    unfold Legacy.hasOwnProperty. now rewrite legacy_lookup_assign_same. }
  remember (if negb (Legacy.hasOwnProperty h0 "content-type")
            then Legacy.assign h0 "content-type" "application/json"
            else h0) as h1 eqn:Hh1.
  destruct (Legacy.hasOwnProperty h1 "content-length") eqn:E; cbn [negb].
  - split; [exact H1 | exact E].
  - unfold Legacy.hasOwnProperty in *.
    rewrite legacy_lookup_assign_other by discriminate.
    rewrite legacy_lookup_assign_same. split; [exact H1 | reflexivity].
Qed.

(** Preparing again after a change of URL changes nothing. *)
Lemma legacy_prepare_set_url (this : Legacy.Request.t) (u : URL.t) :
  Legacy.Request.prepare
    (Legacy.Request.set_url (Legacy.Request.prepare this) u) =
  Legacy.Request.set_url (Legacy.Request.prepare this) u.
Proof.
  destruct (JS.truthy_string (Legacy.Request.body this)) eqn:Hb.
  - destruct (legacy_prepare_has this Hb) as [H1 H2]. cbv zeta in H1, H2.
    assert (Hb' : Legacy.Request.body (Legacy.Request.prepare this) =
                  Legacy.Request.body this)
      by (unfold Legacy.Request.prepare; rewrite Hb; reflexivity).
    unfold Legacy.Request.prepare at 1.
    cbn [Legacy.Request.set_url Legacy.Request.body
         Legacy.Request.reqHeaders].
    cbv zeta. rewrite Hb', Hb, H1. cbn [negb]. rewrite H2. reflexivity.
  - unfold Legacy.Request.prepare. rewrite Hb.
    cbn [Legacy.Request.set_url Legacy.Request.body]. now rewrite Hb.
Qed.

Lemma legacy_prepare_frame (this : Legacy.Request.t) :
  Legacy.Request.method (Legacy.Request.prepare this) =
    Legacy.Request.method this /\
  Legacy.Request.body (Legacy.Request.prepare this) =
    Legacy.Request.body this /\
  Legacy.Request.url (Legacy.Request.prepare this) =
    Legacy.Request.url this /\
  Legacy.Request.redirectEnabled (Legacy.Request.prepare this) =
    Legacy.Request.redirectEnabled this /\
  Legacy.Request.compressionEnabled (Legacy.Request.prepare this) =
    Legacy.Request.compressionEnabled this.
Proof.
  unfold Legacy.Request.prepare.
  destruct (JS.truthy_string (Legacy.Request.body this)); repeat split.
Qed.

Section LegacySend.

Variable URL_new : URL.parser.
Variable transport : Legacy.Options.t -> option string -> Legacy.Reply.

Lemma legacy_send_eq (fuel : nat) (this0 : Legacy.Request.t) :
  Legacy.Request.send URL_new transport fuel this0 =
  let this := Legacy.Request.prepare this0 in
  let options := Legacy.Request.options this in
  match Legacy.adapterForHttp (Legacy.Options.protocol options) with
  | inl e => (this, [], Legacy.Rejected e)
  | inr _ =>
      let hop :=
        Legacy.Request.mkHop options
          (if JS.truthy_string (Legacy.Request.body this)
           then Some (Legacy.Request.body this) else None) in
      match transport options (Legacy.Request.hop_written hop) with
      | Legacy.ReplyResponse res =>
          if JS.truthy_string
               (or_default
                  (Legacy.lookup (Legacy.IncomingMessage.headers res)
                                 "location") "")
             && Legacy.Request.redirectEnabled this
          then
            match URL_new
                    (or_default
                       (Legacy.lookup (Legacy.IncomingMessage.headers res)
                                      "location") "")
                    (Some (URL.toString (Legacy.Request.url this))) with
            | None => (this, [hop], Legacy.Pending)
            | Some target =>
                let this' := Legacy.Request.set_url this target in
                match fuel with
                | O => (this', [hop], Legacy.Pending)
                | S fuel' =>
                    let '(this'', hops, st) :=
                      Legacy.Request.send URL_new transport fuel' this' in
                    (this'', hop :: hops, st)
                end
            end
          else (this, [hop],
                Legacy.Resolved (Legacy.Request.decode this res) res)
      | Legacy.ReplyError e => (this, [hop], Legacy.Rejected e)
      | Legacy.ReplyIdle =>
          (this, [hop],
           if JS.truthy_number (Legacy.Request.timeoutTime this)
           then Legacy.Rejected (JS.Error "Timeout") else Legacy.Pending)
      end
  end.
Proof. destruct fuel; reflexivity. Qed.

(** In the earlier client every request of a run repeats the first one:
    the same upper-cased method, the same headers (content type and
    length filled in once) and the same body written, whatever the status
    of the redirecting responses; only the URL moves. *)
Theorem legacy_hops_repeat_request :
  forall (fuel : nat) (this this' : Legacy.Request.t)
         (hops : list Legacy.Request.Hop) (st : Legacy.Settled),
    Legacy.Request.send URL_new transport fuel this = (this', hops, st) ->
    Forall
      (fun h =>
         Legacy.Options.method (Legacy.Request.hop_options h) =
           JS.toUpperCase (Legacy.Request.method this) /\
         Legacy.Options.headers (Legacy.Request.hop_options h) =
           Legacy.Request.reqHeaders (Legacy.Request.prepare this) /\
         Legacy.Request.hop_written h =
           if JS.truthy_string (Legacy.Request.body this)
           then Some (Legacy.Request.body this) else None)
      hops.
Proof.
  assert (Hop : forall this : Legacy.Request.t,
             let p := Legacy.Request.prepare this in
             Legacy.Options.method (Legacy.Request.options p) =
               JS.toUpperCase (Legacy.Request.method this) /\
             Legacy.Options.headers (Legacy.Request.options p) =
               Legacy.Request.reqHeaders p /\
             (if JS.truthy_string (Legacy.Request.body p)
              then Some (Legacy.Request.body p) else None) =
             (if JS.truthy_string (Legacy.Request.body this)
              then Some (Legacy.Request.body this) else None)).
  { intros this p.
    destruct (legacy_prepare_frame this) as (Hm & Hb & _). fold p in Hm, Hb.
    cbn [Legacy.Request.options Legacy.Options.method Legacy.Options.headers].
    rewrite Hm, Hb. repeat split. }
  induction fuel as [|fuel IH]; intros this this' hops st Hs;
    rewrite legacy_send_eq in Hs; cbv zeta in Hs;
    specialize (Hop this); cbv zeta in Hop;
    remember (Legacy.Request.prepare this) as p eqn:Hp.
  - destruct (Legacy.adapterForHttp _);
      [injection Hs as <- <- <-; constructor|].
    destruct (transport _ _) as [res | e |];
      [| injection Hs as <- <- <-; constructor; [exact Hop | constructor] ..].
    destruct (_ && _);
      [| injection Hs as <- <- <-; constructor; [exact Hop | constructor]].
    destruct (URL_new _ _) as [target|];
      injection Hs as <- <- <-; (constructor; [exact Hop | constructor]).
  - destruct (Legacy.adapterForHttp _);
      [injection Hs as <- <- <-; constructor|].
    destruct (transport _ _) as [res | e |];
      [| injection Hs as <- <- <-; constructor; [exact Hop | constructor] ..].
    destruct (_ && _);
      [| injection Hs as <- <- <-; constructor; [exact Hop | constructor]].
    destruct (URL_new _ _) as [target|];
      [| injection Hs as <- <- <-; constructor; [exact Hop | constructor]].
    destruct (Legacy.Request.send URL_new transport fuel
                (Legacy.Request.set_url p target))
      as [[this2 hops2] st2] eqn:Hn.
    injection Hs as <- <- <-.
    constructor; [exact Hop|].
    specialize (IH _ _ _ _ Hn). rewrite Hp in IH.
    rewrite legacy_prepare_set_url in IH. rewrite <- Hp in IH.
    cbn [Legacy.Request.set_url Legacy.Request.method Legacy.Request.body
         Legacy.Request.reqHeaders] in IH.
    destruct (legacy_prepare_frame this) as (Hm & Hb & _).
    rewrite <- Hp in Hm, Hb. rewrite Hm, Hb in IH. exact IH.
Qed.

(** With redirects enabled the earlier client never resolves with a
    response that carries a non-empty Location header: it follows the
    header whatever the status code is. *)
Theorem legacy_never_resolves_with_location :
  forall (fuel : nat) (this this' : Legacy.Request.t)
         (hops : list Legacy.Request.Hop) (stream : Stream.t)
         (res : Legacy.IncomingMessage.t),
    Legacy.Request.redirectEnabled this = true ->
    Legacy.Request.send URL_new transport fuel this =
      (this', hops, Legacy.Resolved stream res) ->
    Legacy.lookup (Legacy.IncomingMessage.headers res) "location" = None \/
    Legacy.lookup (Legacy.IncomingMessage.headers res) "location" = Some "".
Proof.
  assert (Last : forall res0 : Legacy.IncomingMessage.t,
             JS.truthy_string
               (or_default
                  (Legacy.lookup (Legacy.IncomingMessage.headers res0)
                                 "location") "") = false ->
             Legacy.lookup (Legacy.IncomingMessage.headers res0) "location"
               = None \/
             Legacy.lookup (Legacy.IncomingMessage.headers res0) "location"
               = Some "").
  { intros res0 L.
    destruct (Legacy.lookup (Legacy.IncomingMessage.headers res0) "location")
      as [[|c s]|]; [right; reflexivity | discriminate L | left; reflexivity]. }
  induction fuel as [|fuel IH]; intros this this' hops stream res Hr Hs;
    rewrite legacy_send_eq in Hs; cbv zeta in Hs;
    destruct (legacy_prepare_frame this) as (_ & _ & _ & Hr' & _);
    rewrite Hr in Hr';
    remember (Legacy.Request.prepare this) as p eqn:Hp;
    rewrite Hr' in Hs.
  - destruct (Legacy.adapterForHttp _); [discriminate|].
    destruct (transport _ _) as [res0 | e |]; [| discriminate |].
    + rewrite andb_true_r in Hs. destruct (JS.truthy_string _) eqn:L.
      * destruct (URL_new _ _); discriminate.
      * injection Hs as <- <- <- <-. exact (Last _ L).
    + destruct (JS.truthy_number _); discriminate.
  - destruct (Legacy.adapterForHttp _); [discriminate|].
    destruct (transport _ _) as [res0 | e |]; [| discriminate |].
    + rewrite andb_true_r in Hs. destruct (JS.truthy_string _) eqn:L.
      * destruct (URL_new _ _) as [target|]; [|discriminate].
        destruct (Legacy.Request.send URL_new transport fuel
                    (Legacy.Request.set_url p target))
          as [[this2 hops2] st2] eqn:Hn.
        injection Hs as <- <- ->.
        apply (IH (Legacy.Request.set_url p target) _ _ _ _ Hr' Hn).
      * injection Hs as <- <- <- <-. exact (Last _ L).
    + destruct (JS.truthy_number _); discriminate.
Qed.

End LegacySend.

Lemma legacy_hops_repeat_request_witness :
  exists this' hops st,
    Legacy.Request.send Example.URL_new LegacyExample.transport 3
      LegacyExample.client = (this', hops, st) /\
    map (fun h => Legacy.Options.path (Legacy.Request.hop_options h)) hops =
      ["/a"; "/b"] /\
    Forall
      (fun h =>
         Legacy.Options.method (Legacy.Request.hop_options h) =
           JS.toUpperCase (Legacy.Request.method LegacyExample.client) /\
         Legacy.Options.headers (Legacy.Request.hop_options h) =
           Legacy.Request.reqHeaders
             (Legacy.Request.prepare LegacyExample.client) /\
         Legacy.Request.hop_written h =
           if JS.truthy_string (Legacy.Request.body LegacyExample.client)
           then Some (Legacy.Request.body LegacyExample.client) else None)
      hops.
Proof.
  do 3 eexists. split; [reflexivity|]. split; [reflexivity|].
  eapply (legacy_hops_repeat_request Example.URL_new LegacyExample.transport 3
            LegacyExample.client).
  reflexivity.
Defined.

Lemma legacy_never_resolves_with_location_witness :
  exists this' hops stream res,
    Legacy.Request.send Example.URL_new LegacyExample.transport 3
      LegacyExample.client = (this', hops, Legacy.Resolved stream res) /\
    (Legacy.lookup (Legacy.IncomingMessage.headers res) "location" = None \/
     Legacy.lookup (Legacy.IncomingMessage.headers res) "location" = Some "").
Proof.
  do 4 eexists. split; [reflexivity|].
  eapply (legacy_never_resolves_with_location Example.URL_new
            LegacyExample.transport 3 LegacyExample.client).
  - reflexivity.
  - reflexivity.
Defined.

(** ** The helpers of the earlier client *)

Section LegacyHelpers.

Variable V : Type.
Variable String_of : V -> string.
Variable JSON_stringify : list (string * V) -> string.
Variable URL_new : URL.parser.
Variable transport : Legacy.Options.t -> option string -> Legacy.Reply.

Lemma legacy_setHeader_app (this : Legacy.Request.t)
    (l : list (string * V)) (kv : string * V) :
  Legacy.Request.setHeader V String_of this (l ++ [kv]) =
  Legacy.Request.set_reqHeaders
    (Legacy.Request.setHeader V String_of this l)
    (Legacy.assign
       (Legacy.Request.reqHeaders (Legacy.Request.setHeader V String_of this l))
       (JS.toLowerCase (fst kv)) (String_of (snd kv))).
Proof. unfold Legacy.Request.setHeader. now rewrite fold_left_app. Qed.


Lemma legacy_setHeader_frame (headerData : list (string * V)) :
  forall this : Legacy.Request.t,
    let r := Legacy.Request.setHeader V String_of this headerData in
    Legacy.Request.redirectEnabled r = Legacy.Request.redirectEnabled this /\
    Legacy.Request.compressionEnabled r =
      Legacy.Request.compressionEnabled this.
Proof.
  induction headerData as [|kv l IH] using rev_ind; intros this r;
    [split; reflexivity|].
  unfold r. rewrite legacy_setHeader_app. cbn. apply IH.
Qed.



Lemma status_ok_range (statusCode : option Z) :
  Legacy.status_ok statusCode = true <->
  exists n, statusCode = Some n /\ 200 <= n < 300.
Proof.
  unfold Legacy.status_ok, JS.truthy_number. split.
  - destruct statusCode as [n|]; [|discriminate]. intros H.
    apply andb_true_iff in H. destruct H as [H H3].
    apply andb_true_iff in H. destruct H as [_ H2].
    exists n. split; [reflexivity|]. apply Z.leb_le in H2.
    apply Z.ltb_lt in H3. lia.
  - intros (n & -> & H).
    assert (E : (n =? 0) = false) by (apply Z.eqb_neq; lia).
    rewrite E. cbn [negb andb].
    apply andb_true_iff. split; [apply Z.leb_le | apply Z.ltb_lt]; lia.
Qed.

(** [streamRequest] hands the stream over only for a final response with
    a status from 200 to 299; any other status, and a response without
    status code, rejects with the message that quotes status code and
    status message, whatever the body holds. *)
Theorem streamRequest_verdict :
  forall (fuel : nat) (options : Legacy.HelperOptions.t V)
         (req this' : Legacy.Request.t) (hops : list Legacy.Request.Hop)
         (stream : Stream.t) (res : Legacy.IncomingMessage.t),
    Legacy.configure V String_of JSON_stringify URL_new 15000 options
      = inr req ->
    Legacy.Request.send URL_new transport fuel req =
      (this', hops, Legacy.Resolved stream res) ->
    ((exists n, Legacy.IncomingMessage.statusCode res = Some n /\
                200 <= n < 300) ->
     Legacy.streamRequest V String_of JSON_stringify URL_new transport fuel
       options = (hops, Legacy.StreamResolved stream)) /\
    (~ (exists n, Legacy.IncomingMessage.statusCode res = Some n /\
                  200 <= n < 300) ->
     Legacy.streamRequest V String_of JSON_stringify URL_new transport fuel
       options =
     (hops,
      Legacy.StreamRejected
        (JS.Error ("Server responded with "
                   ++ Legacy.status_text (Legacy.IncomingMessage.statusCode res)
                   ++ ": " ++ Legacy.IncomingMessage.statusMessage res)))).
Proof.
  intros fuel options req this' hops stream res Hc Hs.
  unfold Legacy.streamRequest. rewrite Hc, Hs.
  pose proof (status_ok_range (Legacy.IncomingMessage.statusCode res)) as R.
  destruct (Legacy.status_ok (Legacy.IncomingMessage.statusCode res)).
  - split; [reflexivity|]. intros N. exfalso. apply N. now apply R.
  - split; [|reflexivity]. intros Y. apply R in Y. discriminate Y.
Qed.

End LegacyHelpers.


Lemma streamRequest_verdict_witness :
  exists req this' hops stream res,
    Legacy.configure string LegacyExample.String_of
      LegacyExample.JSON_stringify Example.URL_new 15000
      LegacyExample.options = inr req /\
    Legacy.Request.send Example.URL_new LegacyExample.transport 3 req =
      (this', hops, Legacy.Resolved stream res) /\
    ((exists n, Legacy.IncomingMessage.statusCode res = Some n /\
                200 <= n < 300) ->
     Legacy.streamRequest string LegacyExample.String_of
       LegacyExample.JSON_stringify Example.URL_new LegacyExample.transport 3
       LegacyExample.options = (hops, Legacy.StreamResolved stream)) /\
    (~ (exists n, Legacy.IncomingMessage.statusCode res = Some n /\
                  200 <= n < 300) ->
     Legacy.streamRequest string LegacyExample.String_of
       LegacyExample.JSON_stringify Example.URL_new LegacyExample.transport 3
       LegacyExample.options =
     (hops,
      Legacy.StreamRejected
        (JS.Error ("Server responded with "
                   ++ Legacy.status_text (Legacy.IncomingMessage.statusCode res)
                   ++ ": " ++ Legacy.IncomingMessage.statusMessage res)))).
Proof.
  do 5 eexists. split; [reflexivity|]. split; [reflexivity|].
  eapply (streamRequest_verdict string LegacyExample.String_of
            LegacyExample.JSON_stringify Example.URL_new
            LegacyExample.transport 3 LegacyExample.options).
  - reflexivity.
  - reflexivity.
Defined.

(** ** Redirects that keep the request: 307 and 308 *)







(* ===================================================================== *)
(** ** The requests of a run                                             *)
(* ===================================================================== *)

(** Every exchange of a run was made by a client that an invariant of the
    response handler and of the write holds for: its request is the one
    [createRequest] made from that client and its body the one the
    options of that client held. *)
Lemma send_hops_invariant (URL_new : URL.parser)
    (transport : ClientRequest.t -> Body -> Reply)
    (I : RequestClient.t -> Prop) :
  (forall this res,
      I this -> I (fst (RequestClient.onResponse URL_new this res))) ->
  (forall this, I this -> I (snd (RequestClient.writeToRequest this))) ->
  forall fuel this this' hops st,
    I this ->
    RequestClient.send URL_new transport fuel this = inr (this', hops, st) ->
    Forall
      (fun h =>
         exists c,
           I c /\
           RequestClient.createRequest c = inr (RequestClient.hop_request h) /\
           RequestClient.hop_body h =
             RequestOptions.body (RequestClient.options c))
      hops.
Proof.
  intros Hstep Hwrite.
  induction fuel as [|fuel IH]; intros this0 this' hops st Hi0 Hs;
    rewrite send_eq in Hs;
    destruct (RequestClient.createRequest this0) as [e|req] eqn:Hc;
    try discriminate; cbv zeta in Hs;
    pose proof (Hwrite this0 Hi0) as Hi;
    assert (Hhead : forall effects completion,
               exists c,
                 I c /\
                 RequestClient.createRequest c =
                   inr (RequestClient.hop_request
                          (RequestClient.mkHop req
                             (fst (RequestClient.writeToRequest this0))
                             effects completion)) /\
                 RequestClient.hop_body
                   (RequestClient.mkHop req
                      (fst (RequestClient.writeToRequest this0))
                      effects completion) =
                 RequestOptions.body (RequestClient.options c))
      by (intros effects completion; exists this0;
          split; [exact Hi0 | split; [exact Hc | reflexivity]]);
    destruct (transport req _) as [res | e | |];
    try (injection Hs as _ <- _; constructor; [apply Hhead | constructor]).
  - destruct (RequestClient.sends_again _);
      injection Hs as _ <- _; (constructor; [apply Hhead | constructor]).
  - pose proof (Hstep _ res Hi) as Hi'.
    destruct (RequestClient.sends_again _).
    + destruct (RequestClient.send URL_new transport fuel _)
        as [e | [[this2 hops2] next]] eqn:Hnext.
      * injection Hs as _ <- _. constructor; [apply Hhead | constructor].
      * injection Hs as _ <- _. constructor; [apply Hhead|].
        exact (IH _ this2 hops2 next Hi' Hnext).
    + injection Hs as _ <- _. constructor; [apply Hhead | constructor].
Qed.




Lemma upper_upper_char (c : ascii) :
  JS.upper_char (JS.upper_char c) = JS.upper_char c.
Proof.
  destruct c as [b0 b1 b2 b3 b4 b5 b6 b7].
  destruct b0, b1, b2, b3, b4, b5, b6, b7; reflexivity.
Qed.

Lemma toUpperCase_idempotent (s : string) :
  JS.toUpperCase (JS.toUpperCase s) = JS.toUpperCase s.
Proof.
  induction s as [|c s IH]; simpl; [reflexivity|].
  unfold JS.toUpperCase in *; simpl.
  now rewrite upper_upper_char, IH.
Qed.

Lemma request_method_named (method sent : string) :
  method <> "" ->
  Node.request_method method = inr sent -> sent = JS.toUpperCase method.
Proof.
  intros Hn. unfold Node.request_method.
  destruct method as [|c r]; [contradiction Hn; reflexivity|].
  cbn [JS.truthy_string].
  destruct (checkIsHttpToken _); [|discriminate].
  intros H. injection H as <-. reflexivity.
Qed.

(** When the method of the constructor options is not the empty string,
    no request of a run goes out with a body and the method GET or HEAD:
    the resolver refuses the combination at the start, Node sends the
    method in upper case, as the resolver compared it, and a redirect
    only ever rewrites to GET while dropping the body. *)
Theorem named_method_sends_no_body_with_get_or_head :
  forall (URL_new : URL.parser) (transport : ClientRequest.t -> Body -> Reply)
         (fuel : nat) (co : RequestConstructorOptions.t)
         (this : RequestClient.t) (hops : list RequestClient.Hop)
         (st : Settled),
    RequestConstructorOptions.method co <> Some "" ->
    Request.run URL_new transport fuel co = inr (this, hops, st) ->
    Forall
      (fun h =>
         RequestClient.hop_body h <> BodyNull ->
         ClientRequest.method (RequestClient.hop_request h) <> "GET" /\
         ClientRequest.method (RequestClient.hop_request h) <> "HEAD")
      hops.
Proof.
  intros URL_new transport fuel co this hops st Hnamed Hr.
  unfold Request.run, Request.new in Hr.
  destruct (getRequestOptions URL_new co) as [e|o] eqn:G; [discriminate|].
  destruct (getRequestOptions_inr URL_new co o G)
    as (u & _ & _ & _ & V & Ho).
  pose (I := fun c : RequestClient.t =>
               body_is_null (RequestOptions.body (RequestClient.options c))
                 = true \/
               (RequestOptions.method (RequestClient.options c) <> "" /\
                JS.toUpperCase (RequestOptions.method (RequestClient.options c))
                  <> METHOD_MAP.GET /\
                JS.toUpperCase (RequestOptions.method (RequestClient.options c))
                  <> METHOD_MAP.HEAD)).
  assert (Hstep : forall c res,
             I c -> I (fst (RequestClient.onResponse URL_new c res))).
  { intros c res Hc. unfold I.
    destruct (onResponse_options URL_new c res) as [-> | (w & ->)];
      [exact Hc|].
    destruct (rewrite_cases (RequestClient.options c)
                (or_default (IncomingMessage.statusCode res) 200)
                (RequestOptions.method (RequestClient.options c)))
      as [-> | ->]; cbn; [exact Hc | left; reflexivity]. }
  assert (Hwrite : forall c, I c -> I (snd (RequestClient.writeToRequest c))).
  { intros c Hc. unfold I.
    destruct (writeToRequest_frame c) as (_ & _ & -> & -> & _).
    destruct Hc as [Hc | Hc]; [left | right; exact Hc].
    destruct (RequestOptions.body (RequestClient.options c));
      [reflexivity | discriminate Hc ..]. }
  assert (Hi : I (RequestClient.new o)).
  { destruct V as [V | [Vg Vh]]; [left; exact V | right].
    assert (Hm : RequestOptions.method o =
                 JS.toUpperCase
                   (or_default (RequestConstructorOptions.method co)
                               (DefaultOptions.method DEFAULT_OPTIONS)))
      by (rewrite Ho; reflexivity).
    change (RequestClient.options (RequestClient.new o)) with o.
    split.
    - rewrite Hm.
      destruct (RequestConstructorOptions.method co) as [[|c r]|];
        [contradiction Hnamed; reflexivity | discriminate | discriminate].
    - rewrite Hm, toUpperCase_idempotent, <- Hm. split; assumption. }
  pose proof (send_hops_invariant URL_new transport I Hstep Hwrite fuel
                (RequestClient.new o) this hops st Hi Hr) as F.
  eapply Forall_impl; [|exact F].
  intros h (c & Hc & Hreq & Hbody) Hnn. cbv beta.
  apply createRequest_sends in Hreq. destruct Hreq as [Hreq _].
  rewrite Hbody in Hnn.
  destruct Hc as [Hc | (Hne & Hg & Hh)].
  - exfalso. apply Hnn.
    destruct (RequestOptions.body (RequestClient.options c));
      [reflexivity | discriminate Hc ..].
  - rewrite (request_method_named _ _ Hne Hreq). split; assumption.
Qed.

Lemma named_method_sends_no_body_with_get_or_head_witness :
  exists this hops st,
    RequestConstructorOptions.method
      (Example.options (Some "post") (Some (BodyString "x")) None None)
      <> Some "" /\
    Request.run Example.URL_new Example.redirecting 3
      (Example.options (Some "post") (Some (BodyString "x")) None None) =
      inr (this, hops, st) /\
    requests_of hops =
      [("/a", "POST", BodyString "x"); ("/b", "GET", BodyNull)] /\
    Forall
      (fun h =>
         RequestClient.hop_body h <> BodyNull ->
         ClientRequest.method (RequestClient.hop_request h) <> "GET" /\
         ClientRequest.method (RequestClient.hop_request h) <> "HEAD")
      hops.
Proof.
  do 3 eexists. split; [discriminate|].
  split; [reflexivity|]. split; [reflexivity|].
  eapply (named_method_sends_no_body_with_get_or_head Example.URL_new
            Example.redirecting 3
            (Example.options (Some "post") (Some (BodyString "x")) None None)).
  - discriminate.
  - reflexivity.
Defined.
